(** * USBMassStorage: the SCSI command layer of the Facedancer mass-storage device

    A shallow embedding of [USBMassStorage.py]: the command block wrapper
    parser, the SCSI handlers, the write continuation, the bulk-OUT entry
    point and the disk image, followed by the properties of the
    specification that concern them.

    Python integers are [Z]; [bytes] objects are lists of [byte]; a method
    that mutates [self], talks to the disk image or sends on an endpoint is
    a computation in a state-and-exception monad over the interface object
    and a log of the calls made to the outside. *)

From Stdlib Require Import ZArith Lia.
From Stdlib Require Import Strings.Byte Strings.String.
From stdpp Require Import base tactics option list gmap.

Local Open Scope Z_scope.

(** ** Python values and primitives *)

Module Py.

(** The exceptions the modelled code can raise. *)
Inductive exn : Type :=
| IndexError
| NameError
| ValueError
| StructError
| ZeroDivisionError
| OverflowError.

Inductive result (A : Type) : Type :=
| Ok (a : A)
| Raise (e : exn).
Arguments Ok {A} a.
Arguments Raise {A} e.

Definition bytes : Type := list byte.

(** The integer a byte stands for when a [bytes] object is indexed. *)
Definition int_of_byte (b : byte) : Z := Z.of_N (Byte.to_N b).

Definition byte_of_int (z : Z) : option byte :=
  if (0 <=? z) && (z <? 256) then Byte.of_N (Z.to_N z) else None.

(** [bytes([x0, x1, ...])]: every item must be in [range(256)]. *)
Fixpoint bytes_of_ints (l : list Z) : result bytes :=
  match l with
  | [] => Ok []
  | z :: l' =>
      match byte_of_int z with
      | None => Raise ValueError
      | Some b =>
          match bytes_of_ints l' with
          | Ok bs => Ok (b :: bs)
          | Raise e => Raise e
          end
      end
  end.

(** [ord(c)] of a one-character string. *)
Definition ord (c : byte) : Z := int_of_byte c.
Arguments ord c%_byte.

(** A result that is not an exception. *)
Definition is_ok {A} (r : result A) : Prop := exists a, r = Ok a.

(** A [b'...'] literal written with its character text. *)
Definition lit (s : string) : bytes := list_byte_of_string s.

(** [len(x)] *)
Definition len {A} (l : list A) : Z := Z.of_nat (length l).

(** [x[i]] for an integer [i]: negative indices count from the end, an
    index outside the object raises IndexError. *)
Definition getitem {A} (l : list A) (i : Z) : result A :=
  let j := if i <? 0 then i + len l else i in
  if j <? 0 then Raise IndexError
  else match l !! Z.to_nat j with
       | Some x => Ok x
       | None => Raise IndexError
       end.

(** The clamping of a slice bound (PySlice_AdjustIndices, step 1). *)
Definition adjust_index (n i : Z) : Z :=
  if i <? 0 then Z.max (i + n) 0 else Z.min i n.

(** [x[start:stop]]: never raises, the bounds are clamped to the object. *)
Definition slice {A} (l : list A) (start stop : Z) : list A :=
  let a := adjust_index (len l) start in
  let b := adjust_index (len l) stop in
  take (Z.to_nat (b - a)) (drop (Z.to_nat a) l).

(** [x[start:]] *)
Definition slice_from {A} (l : list A) (start : Z) : list A :=
  slice l start (len l).

(** [[x] * n]: empty when [n] is zero or negative. *)
Definition list_mul {A} (x : A) (n : Z) : list A := replicate (Z.to_nat n) x.

(** [range(n)] *)
Definition range (n : Z) : list Z := seqZ 0 n.

(** Truth value of a response that is [None] or a [bytes] object. *)
Definition truthy (r : option bytes) : bool :=
  match r with
  | None => false
  | Some [] => false
  | Some (_ :: _) => true
  end.

(** *** True division of integers and [int()] of the quotient

    [a / b] on two [int]s is the binary64 number nearest to the exact
    quotient (ties to the even significand); [int(x)] drops the
    fractional part.  A finite float is kept as significand and
    exponent, [Fnum * 2 ^ Fexp]. *)

Record float : Type := Float { Fnum : Z; Fexp : Z }.

(** [n / d] rounded to the nearest integer, ties to even ([0 <= n], [0 < d]). *)
Definition round_half_even (n d : Z) : Z :=
  let q := n / d in
  let r := n mod d in
  if 2 * r <? d then q
  else if d <? 2 * r then q + 1
  else if Z.even q then q else q + 1.

(** [b * 2 ^ e <= a], also for a negative [e]. *)
Definition scaled_le (b e a : Z) : bool :=
  if 0 <=? e then b * 2 ^ e <=? a else b <=? a * 2 ^ (- e).

(** Magnitude of the quotient of two positive integers. *)
Definition truediv_pos (a b : Z) : result float :=
  let e0 := Z.log2 a - Z.log2 b in
  let ex := if scaled_le b e0 a then e0 else e0 - 1 in
  if 1023 <? ex then Raise OverflowError
  else
    let sh := 52 - Z.max ex (-1022) in
    let n := if 0 <=? sh then a * 2 ^ sh else a in
    let d := if 0 <=? sh then b else b * 2 ^ (- sh) in
    Ok (Float (round_half_even n d) (- sh)).

Definition truediv (a b : Z) : result float :=
  if b =? 0 then Raise ZeroDivisionError
  else if a =? 0 then Ok (Float 0 0)
  else
    match truediv_pos (Z.abs a) (Z.abs b) with
    | Ok f => Ok (Float (Z.sgn a * Z.sgn b * Fnum f) (Fexp f))
    | Raise e => Raise e
    end.

(** [int(x)]: truncation towards zero. *)
Definition int_of_float (x : float) : Z :=
  if 0 <=? Fexp x then Fnum x * 2 ^ Fexp x
  else Z.quot (Fnum x) (2 ^ (- Fexp x)).

End Py.

Import Py.

(** ** Byte order *)

(** Four bytes, most significant first. *)
Definition be32 (b0 b1 b2 b3 : Z) : Z :=
  b0 * 2 ^ 24 + b1 * 2 ^ 16 + b2 * 2 ^ 8 + b3.

(** Two bytes, most significant first. *)
Definition be16 (b0 b1 : Z) : Z := b0 * 2 ^ 8 + b1.

(** Four bytes, least significant first. *)
Definition le32 (b0 b1 b2 b3 : Z) : Z :=
  b0 + b1 * 2 ^ 8 + b2 * 2 ^ 16 + b3 * 2 ^ 24.

(** ** The command block wrapper *)

Record CommandBlockWrapper : Type := {
  signature : bytes;
  tag : bytes;
  data_transfer_length : Z;
  flags : Z;
  lun : Z;
  cb_length : Z;
  cb : bytes
}.

(** [bytestring[i]] read as an integer. *)
Definition byte_at (bytestring : bytes) (i : Z) : result Z :=
  match getitem bytestring i with
  | Ok b => Ok (int_of_byte b)
  | Raise e => Raise e
  end.

(** Sequencing of computations that can only raise. *)
Definition rbind {A B} (r : result A) (k : A -> result B) : result B :=
  match r with
  | Ok a => k a
  | Raise e => Raise e
  end.

Notation "'try' x := r 'in' k" := (rbind r (fun x => k))
  (at level 10, x name, r at level 100, k at level 200).

(** [CommandBlockWrapper.__init__] *)
Definition CommandBlockWrapper_init (bytestring : bytes) : result CommandBlockWrapper :=
  let signature := slice bytestring 0 4 in
  let tag := slice bytestring 4 8 in
  try b8 := byte_at bytestring 8 in
  try b9 := byte_at bytestring 9 in
  try b10 := byte_at bytestring 10 in
  try b11 := byte_at bytestring 11 in
  let data_transfer_length :=
    Z.lor (Z.lor (Z.lor b8 (Z.shiftl b9 8)) (Z.shiftl b10 16)) (Z.shiftl b11 24) in
  try b12 := byte_at bytestring 12 in
  try b13 := byte_at bytestring 13 in
  try b14 := byte_at bytestring 14 in
  Ok {| signature := signature;
        tag := tag;
        data_transfer_length := data_transfer_length;
        flags := b12;
        lun := Z.land b13 0x0f;
        cb_length := Z.land b14 0x1f;
        cb := slice_from bytestring 15 |}.

(** ** The disk image *)

Module DiskImage.

(** [image] is the memory map of the whole file, [medium] what the last
    flush left in the file and [flushes] the number of flushes so far. *)
Record t : Type := {
  block_size : Z;
  size : Z;
  image : bytes;
  medium : bytes;
  flushes : nat
}.

(** Slice assignment on a memory map: the value must be exactly as long
    as the (clamped) slice, the map is never resized. *)
Definition mmap_setslice (m : bytes) (start stop : Z) (value : bytes) : result bytes :=
  let a := adjust_index (len m) start in
  let b := adjust_index (len m) stop in
  let slicelen := Z.max (b - a) 0 in
  if len value =? slicelen
  then Ok (take (Z.to_nat a) m ++ value ++ drop (Z.to_nat (a + slicelen)) m)
  else Raise IndexError.

Definition flush (self : t) : t :=
  {| block_size := block_size self; size := size self; image := image self;
     medium := image self; flushes := S (flushes self) |}.

Definition set_image (self : t) (m : bytes) : t :=
  {| block_size := block_size self; size := size self; image := m;
     medium := medium self; flushes := flushes self |}.

Definition get_sector_count (self : t) : result Z :=
  try q := truediv (size self) (block_size self) in
  Ok (int_of_float q - 1).

Definition get_sector_data (self : t) (address : Z) : bytes :=
  let block_start := address * block_size self in
  let block_end := (address + 1) * block_size self in
  slice (image self) block_start block_end.

Definition put_sector_data (self : t) (address : Z) (data : bytes) : result unit * t :=
  let block_start := address * block_size self in
  let block_end := (address + 1) * block_size self in
  match mmap_setslice (image self) block_start block_end (slice data 0 (block_size self)) with
  | Raise e => (Raise e, self)
  | Ok m => (Ok tt, flush (set_image self m))
  end.

(** A disk image as [__init__] leaves it: the size is the size of the
    file and the map covers the file. *)
Definition opened (self : t) : Prop :=
  size self = len (image self) /\ medium self = image self.

End DiskImage.

(** ** The interface object and the monad of its methods *)

Definition STATUS_OKAY : Z := 0x00.
Definition STATUS_FAILURE : Z := 0x02.
Definition STATUS_INCOMPLETE : Z := -1.

Record USBMassStorageInterface : Type := {
  disk_image : DiskImage.t;
  is_write_in_progress : bool;
  write_cbw : option CommandBlockWrapper;
  write_base_lba : Z;
  write_length : Z;
  write_data : bytes
}.

(** What the interface does to its collaborators, in call order. *)
Inductive event : Type :=
| GetSector (address : Z)                 (* disk_image.get_sector_data(address) *)
| PutSector (address : Z) (data : bytes)  (* disk_image.put_sector_data(address, data) *)
| Send (data : bytes) (blocking : bool).  (* ep_to_host.send(data, blocking) *)

Record world : Type := {
  self : USBMassStorageInterface;
  log : list event
}.

Definition M (A : Type) : Type := world -> result A * world.

Definition ret {A} (a : A) : M A := fun w => (Ok a, w).
Definition raise {A} (e : exn) : M A := fun w => (Raise e, w).
Definition bind {A B} (m : M A) (k : A -> M B) : M B :=
  fun w => match m w with
           | (Ok a, w') => k a w'
           | (Raise e, w') => (Raise e, w')
           end.
Definition lift {A} (r : result A) : M A := fun w => (r, w).
Definition gets {A} (f : USBMassStorageInterface -> A) : M A := fun w => (Ok (f (self w)), w).
Definition modify (f : USBMassStorageInterface -> USBMassStorageInterface) : M unit :=
  fun w => (Ok tt, {| self := f (self w); log := log w |}).
Definition emit (e : event) : M unit :=
  fun w => (Ok tt, {| self := self w; log := log w ++ [e] |}).

#[global] Instance M_ret : MRet M := @ret.
#[global] Instance M_bind : MBind M := fun A B k m => bind m k.

(** [for x in xs: body(x)] *)
Fixpoint for_each {A} (xs : list A) (body : A -> M unit) : M unit :=
  match xs with
  | [] => ret tt
  | x :: xs' => body x;; for_each xs' body
  end.

(** Field assignments on [self]. *)
Definition set_disk_image (d : DiskImage.t) (s : USBMassStorageInterface) :=
  {| disk_image := d; is_write_in_progress := is_write_in_progress s;
     write_cbw := write_cbw s; write_base_lba := write_base_lba s;
     write_length := write_length s; write_data := write_data s |}.
Definition set_is_write_in_progress (b : bool) (s : USBMassStorageInterface) :=
  {| disk_image := disk_image s; is_write_in_progress := b;
     write_cbw := write_cbw s; write_base_lba := write_base_lba s;
     write_length := write_length s; write_data := write_data s |}.
Definition set_write_cbw (c : option CommandBlockWrapper) (s : USBMassStorageInterface) :=
  {| disk_image := disk_image s; is_write_in_progress := is_write_in_progress s;
     write_cbw := c; write_base_lba := write_base_lba s;
     write_length := write_length s; write_data := write_data s |}.
Definition set_write_base_lba (z : Z) (s : USBMassStorageInterface) :=
  {| disk_image := disk_image s; is_write_in_progress := is_write_in_progress s;
     write_cbw := write_cbw s; write_base_lba := z;
     write_length := write_length s; write_data := write_data s |}.
Definition set_write_length (z : Z) (s : USBMassStorageInterface) :=
  {| disk_image := disk_image s; is_write_in_progress := is_write_in_progress s;
     write_cbw := write_cbw s; write_base_lba := write_base_lba s;
     write_length := z; write_data := write_data s |}.
Definition set_write_data (d : bytes) (s : USBMassStorageInterface) :=
  {| disk_image := disk_image s; is_write_in_progress := is_write_in_progress s;
     write_cbw := write_cbw s; write_base_lba := write_base_lba s;
     write_length := write_length s; write_data := d |}.

(** [self.ep_to_host.send(data, blocking=...)] *)
Definition ep_to_host_send (data : bytes) (blocking : bool) : M unit :=
  emit (Send data blocking).

(** [self.disk_image.get_sector_count()] *)
Definition disk_get_sector_count : M Z :=
  d ← gets disk_image; lift (DiskImage.get_sector_count d).

(** [self.disk_image.get_sector_data(address)] *)
Definition disk_get_sector_data (address : Z) : M bytes :=
  emit (GetSector address);;
  d ← gets disk_image;
  ret (DiskImage.get_sector_data d address).

(** [self.disk_image.put_sector_data(address, data)] *)
Definition disk_put_sector_data (address : Z) (data : bytes) : M unit :=
  emit (PutSector address data);;
  d ← gets disk_image;
  let '(r, d') := DiskImage.put_sector_data d address data in
  modify (set_disk_image d');;
  lift r.

(** [USBMassStorageInterface.__init__], the fields of the write session. *)
Definition interface_init (disk_image : DiskImage.t) : USBMassStorageInterface :=
  {| disk_image := disk_image;
     is_write_in_progress := false;
     write_cbw := None;
     write_base_lba := 0;
     write_length := 0;
     write_data := [] |}.

(** ** The SCSI handlers *)

(** A [bytes] literal written with [\x] escapes, given by its byte values. *)
Definition hex (values : list Z) : bytes :=
  match bytes_of_ints values with
  | Ok b => b
  | Raise _ => []
  end.

(** [struct.unpack(">BBBHB", buffer)]: the buffer must hold exactly six bytes. *)
Definition struct_unpack_BBBHB (buffer : bytes) : result (Z * Z * Z * Z * Z) :=
  match buffer with
  | [b0; b1; b2; b3; b4; b5] =>
      Ok (int_of_byte b0, int_of_byte b1, int_of_byte b2,
          int_of_byte b3 * 256 + int_of_byte b4, int_of_byte b5)
  | _ => Raise StructError
  end.

(** The handlers a command descriptor can name. *)
Inductive handler : Type :=
| Handle_unknown_command
| Handle_ignored_event
| Handle_sense
| Handle_inquiry
| Handle_mode_sense
| Handle_get_format_capacity
| Handle_get_read_capacity
| Handle_read
| Handle_write.

Record descriptor : Type := {
  d_number : Z;
  d_name : string;
  d_handler : handler
}.

Definition _register_scsi_command (number : Z) (name : string) (h : option handler)
    (commands : gmap Z descriptor) : gmap Z descriptor :=
  let h := match h with None => Handle_unknown_command | Some h => h end in
  <[number := {| d_number := number; d_name := name; d_handler := h |}]> commands.

(** [_initialize_scsi_commands]: the table, registered in source order. *)
Definition commands : gmap Z descriptor :=
  _register_scsi_command 0x36 "Synchronize Cache" (Some Handle_ignored_event)
  (_register_scsi_command 0x2a "Write" (Some Handle_write)
  (_register_scsi_command 0x28 "Read" (Some Handle_read)
  (_register_scsi_command 0x25 "Get Read Capacity" (Some Handle_get_read_capacity)
  (_register_scsi_command 0x23 "Get Format Capacity" (Some Handle_get_format_capacity)
  (_register_scsi_command 0x1e "Prevent/Allow Removal" (Some Handle_ignored_event)
  (_register_scsi_command 0x5a "Mode Sense (10)" (Some Handle_mode_sense)
  (_register_scsi_command 0x1a "Mode Sense (6)" (Some Handle_mode_sense)
  (_register_scsi_command 0x12 "Inquiry" (Some Handle_inquiry)
  (_register_scsi_command 0x03 "Request Sense" (Some Handle_sense)
  (_register_scsi_command 0x00 "Test Unit Ready" (Some Handle_ignored_event)
  ∅)))))))))).

Definition handle_unknown_command (cbw : CommandBlockWrapper) : M (Z * option bytes) :=
  response ← (if 0 <? data_transfer_length cbw
              then r ← lift (bytes_of_ints (list_mul 0 (data_transfer_length cbw)));
                   mret (Some r)
              else mret None);
  mret (STATUS_FAILURE, response).

Definition handle_ignored_event (cbw : CommandBlockWrapper) : M (Z * option bytes) :=
  mret (STATUS_OKAY, None).

Definition handle_sense (cbw : CommandBlockWrapper) : M (Z * option bytes) :=
  let response :=
    hex [0x70; 0x00; 0xFF; 0x00; 0x00; 0x00; 0x00; 0x0A; 0x00; 0x00; 0x00; 0x00;
         0xFF; 0xFF; 0x00; 0x00; 0x00; 0x00; 0x00; 0x00; 0x00; 0x00; 0x00] in
  mret (STATUS_OKAY, Some response).

Definition handle_inquiry (cbw : CommandBlockWrapper) : M (Z * option bytes) :=
  _ ← lift (struct_unpack_BBBHB (slice (cb cbw) 0 6));
  response ← lift (bytes_of_ints [0x00; 0x00; 0x05; 0x02; 0x14; 0x00; 0x00; 0x00]);
  let response := response ++ lit "GoodFET " in
  let response := response ++ lit "GoodFET " in
  let response := response ++ lit "        " in
  let response := response ++ lit "0.01" in
  let diff := data_transfer_length cbw - len response in
  padding ← lift (bytes_of_ints (list_mul 0 diff));
  let response := response ++ padding in
  mret (STATUS_OKAY, Some response).

Definition handle_mode_sense (cbw : CommandBlockWrapper) : M (Z * option bytes) :=
  c2 ← lift (byte_at (cb cbw) 2);
  let page := Z.land c2 0x3f in
  let response := hex [0x07; 0x00; 0x00; 0x00; 0x00; 0x00; 0x00; 0x1c] in
  let response :=
    if negb (page =? 0x3f)
    then hex [0x07; 0x00; 0x00; 0x00; 0x00; 0x00; 0x00; 0x00]
    else response in
  mret (STATUS_OKAY, Some response).

Definition handle_get_format_capacity (cbw : CommandBlockWrapper) : M (Z * option bytes) :=
  response ← lift (bytes_of_ints
    [0x00; 0x00; 0x00; 0x08;
     0x00; 0x00; 0x10; 0x00;
     0x10; 0x00;
     0x02; 0x00]);
  mret (STATUS_OKAY, Some response).

Definition handle_get_read_capacity (cbw : CommandBlockWrapper) : M (Z * option bytes) :=
  lastlba ← disk_get_sector_count;
  response ← lift (bytes_of_ints
    [Z.land (Z.shiftr lastlba 24) 0xff;
     Z.land (Z.shiftr lastlba 16) 0xff;
     Z.land (Z.shiftr lastlba 8) 0xff;
     Z.land lastlba 0xff;
     0x00; 0x00; 0x02; 0x00]);
  mret (STATUS_OKAY, Some response).

Definition handle_read (cbw : CommandBlockWrapper) : M (Z * option bytes) :=
  c2 ← lift (byte_at (cb cbw) 2);
  c3 ← lift (byte_at (cb cbw) 3);
  c4 ← lift (byte_at (cb cbw) 4);
  c5 ← lift (byte_at (cb cbw) 5);
  let base_lba :=
    Z.lor (Z.lor (Z.lor (Z.shiftl c2 24) (Z.shiftl c3 16)) (Z.shiftl c4 8)) c5 in
  c7 ← lift (byte_at (cb cbw) 7);
  c8 ← lift (byte_at (cb cbw) 8);
  let num_blocks := Z.lor (Z.shiftl c7 8) c8 in
  for_each (range num_blocks) (fun block_num =>
    data ← disk_get_sector_data (base_lba + block_num);
    ep_to_host_send data false);;
  mret (STATUS_OKAY, None).

Definition handle_write (cbw : CommandBlockWrapper) : M (Z * option bytes) :=
  c1 ← lift (byte_at (cb cbw) 1);
  c2 ← lift (byte_at (cb cbw) 2);
  c3 ← lift (byte_at (cb cbw) 3);
  c4 ← lift (byte_at (cb cbw) 4);
  let base_lba :=
    Z.lor (Z.lor (Z.lor (Z.shiftl c1 24) (Z.shiftl c2 16)) (Z.shiftl c3 8)) c4 in
  c7 ← lift (byte_at (cb cbw) 7);
  c8 ← lift (byte_at (cb cbw) 8);
  let num_blocks := Z.lor (Z.shiftl c7 8) c8 in
  modify (set_write_cbw (Some cbw));;
  modify (set_write_base_lba base_lba);;
  d ← gets disk_image;
  modify (set_write_length (num_blocks * DiskImage.block_size d));;
  modify (set_is_write_in_progress true);;
  mret (STATUS_INCOMPLETE, None).

Definition call_handler (h : handler) (cbw : CommandBlockWrapper) : M (Z * option bytes) :=
  match h with
  | Handle_unknown_command => handle_unknown_command cbw
  | Handle_ignored_event => handle_ignored_event cbw
  | Handle_sense => handle_sense cbw
  | Handle_inquiry => handle_inquiry cbw
  | Handle_mode_sense => handle_mode_sense cbw
  | Handle_get_format_capacity => handle_get_format_capacity cbw
  | Handle_get_read_capacity => handle_get_read_capacity cbw
  | Handle_read => handle_read cbw
  | Handle_write => handle_write cbw
  end.

Definition handle_scsi_command (cbw : CommandBlockWrapper) : M (Z * option bytes) :=
  opcode ← lift (byte_at (cb cbw) 0);
  let direction := Z.shiftr (flags cbw) 7 in
  match commands !! opcode with
  | Some command => call_handler (d_handler command) cbw
  | None => handle_unknown_command cbw
  end.

(** ** The write continuation and the bulk-OUT entry point *)

Section Entry.

(** [continue_write] reads a name [data] that is neither a parameter nor a
    local of the function, so Python looks it up among the globals of the
    module.  The module defines no such global; only one of the star
    imports of the framework could supply one.  [module_data] is what that
    lookup finds: [None] in the module as it is written. *)
Variable module_data : option bytes.

Definition lookup_data : M bytes :=
  match module_data with
  | Some d => mret d
  | None => raise NameError
  end.

Definition continue_write (cbw : CommandBlockWrapper) : M (Z * option bytes) :=
  buffered ← gets write_data;
  data ← lookup_data;
  modify (set_write_data (buffered ++ data));;
  buffered ← gets write_data;
  expected ← gets write_length;
  if len buffered <? expected
  then mret (STATUS_INCOMPLETE, None)
  else
    base ← gets write_base_lba;
    disk_put_sector_data base buffered;;
    (* [cbw = self.write_cbw] rebinds the parameter of this call only *)
    cbw ← gets write_cbw;
    modify (set_is_write_in_progress false);;
    modify (set_write_data []);;
    mret (STATUS_OKAY, None).

Definition handle_data_available (data : bytes) : M unit :=
  cbw ← lift (CommandBlockWrapper_init data);
  in_progress ← gets is_write_in_progress;
  '(status, response) ← (if (in_progress : bool)
                         then continue_write cbw
                         else handle_scsi_command cbw);
  if status =? STATUS_INCOMPLETE then mret tt
  else
    (if truthy response
     then ep_to_host_send (default [] response) true
     else mret tt);;
    t0 ← lift (byte_at (tag cbw) 0);
    t1 ← lift (byte_at (tag cbw) 1);
    t2 ← lift (byte_at (tag cbw) 2);
    t3 ← lift (byte_at (tag cbw) 3);
    csw ← lift (bytes_of_ints
      [ord "U"; ord "S"; ord "B"; ord "S";
       t0; t1; t2; t3;
       0x00; 0x00; 0x00; 0x00;
       status]);
    ep_to_host_send csw false.

End Entry.


(** ** The wire layout of the specification

    The byte sequence of a command block wrapper as the specification lays
    it out (section 6): signature, tag, little-endian transfer length,
    flags, the byte holding the LUN in its low four bits, the byte holding
    the command block length in its low five bits, then the command bytes. *)

Definition le32_bytes (n : Z) : list Z :=
  [n mod 256; n / 2 ^ 8 mod 256; n / 2 ^ 16 mod 256; n / 2 ^ 24 mod 256].

Definition cbw_wire (signature tag : bytes) (data_transfer_length flags byte13 byte14 : Z)
    (command : bytes) : result bytes :=
  try fixed := bytes_of_ints (le32_bytes data_transfer_length ++ [flags; byte13; byte14]) in
  Ok (signature ++ tag ++ fixed ++ command).

(** ** Concrete disks, deliveries and sessions *)

(** A freshly opened image of [sectors] blank sectors. *)
Definition blank_disk (sectors : nat) : DiskImage.t :=
  {| DiskImage.block_size := 512;
     DiskImage.size := 512 * Z.of_nat sectors;
     DiskImage.image := replicate (512 * sectors) "000"%byte;
     DiskImage.medium := replicate (512 * sectors) "000"%byte;
     DiskImage.flushes := 0 |}.

(** The interface right after construction over a blank disk. *)
Definition fresh_world (sectors : nat) : world :=
  {| self := interface_init (blank_disk sectors); log := [] |}.

(** A 31-byte command block wrapper with signature [USBC]. *)
Definition wire (tag : list Z) (data_transfer_length flags : Z) (command : list Z) : bytes :=
  match cbw_wire (lit "USBC") (hex tag) data_transfer_length flags 0 10 (hex command) with
  | Ok b => b
  | Raise _ => []
  end.

(** A chunk of write data: [n] bytes of value 7. *)
Definition chunk (n : nat) : bytes := replicate n "007"%byte.

(** Write(10) for one block whose address field, as [handle_write] reads
    it, is 5; tag 01 02 03 04. *)
Definition write_10_wire : bytes :=
  wire [1; 2; 3; 4] 512 0 [0x2a; 0; 0; 0; 5; 0; 0; 0; 1; 0; 0; 0; 0; 0; 0; 0].

(** The session after that command has been delivered to a fresh interface
    over eight blank sectors. *)
Definition accumulating_world : world :=
  snd (handle_data_available None write_10_wire (fresh_world 8)).

(** What the parser makes of [wire tag data_transfer_length flags command]. *)
Definition cbw_of (tag : list Z) (data_transfer_length flags : Z) (command : list Z)
    : CommandBlockWrapper :=
  {| signature := lit "USBC"; tag := hex tag;
     data_transfer_length := data_transfer_length; flags := flags;
     lun := 0; cb_length := 10; cb := hex command |}.

(** Opcode 0x77 is not registered; three bytes are asked for. *)
Definition unknown_3 : CommandBlockWrapper :=
  cbw_of [1; 2; 3; 4] 3 0x80 [0x77; 0; 0; 0; 0; 0; 0; 0; 0; 0; 0; 0; 0; 0; 0; 0].

(** The same command with no data phase. *)
Definition unknown_0 : CommandBlockWrapper :=
  cbw_of [1; 2; 3; 4] 0 0x80 [0x77; 0; 0; 0; 0; 0; 0; 0; 0; 0; 0; 0; 0; 0; 0; 0].

(** The 36 bytes of inquiry data: header, vendor, product id, revision. *)
Definition standard_inquiry_data : bytes :=
  hex [0x00; 0x00; 0x05; 0x02; 0x14; 0x00; 0x00; 0x00]
  ++ lit "GoodFET " ++ lit "GoodFET " ++ lit "        " ++ lit "0.01".

(** Inquiry with a transfer length of 5. *)
Definition inquiry_5 : CommandBlockWrapper :=
  cbw_of [1; 2; 3; 4] 5 0x80 [0x12; 0; 0; 0; 5; 0; 0; 0; 0; 0; 0; 0; 0; 0; 0; 0].

(** Inquiry with a transfer length of 40. *)
Definition inquiry_40 : CommandBlockWrapper :=
  cbw_of [1; 2; 3; 4] 40 0x80 [0x12; 0; 0; 0; 40; 0; 0; 0; 0; 0; 0; 0; 0; 0; 0; 0].

(** ** Reading the log *)

(** The calls a run of sector reads leaves in the log: each sector is
    fetched from the disk image and sent at once, before the next fetch. *)
Definition sector_stream (d : DiskImage.t) (lbas : list Z) : list event :=
  flat_map (fun lba => [GetSector lba; Send (DiskImage.get_sector_data d lba) false]) lbas.

(** The addresses of the sector reads of a log, in call order. *)
Definition sector_reads (evs : list event) : list Z :=
  flat_map (fun e => match e with GetSector a => [a] | _ => [] end) evs.

(** The commits of a log: address and data of each [put_sector_data] call. *)
Definition commits (evs : list event) : list (Z * bytes) :=
  flat_map (fun e => match e with PutSector a d => [(a, d)] | _ => [] end) evs.

(** The payloads sent to the host, in call order. *)
Definition sent (evs : list event) : list bytes :=
  flat_map (fun e => match e with Send d _ => [d] | _ => [] end) evs.

(** Read(10) of one block at address 2. *)
Definition read_10_lba_2 : CommandBlockWrapper :=
  cbw_of [1; 2; 3; 4] 512 0x80 [0x28; 0; 0; 0; 0; 2; 0; 0; 1; 0; 0; 0; 0; 0; 0; 0].

(** Read(10) of three blocks from address 10. *)
Definition read_10_lba_10 : CommandBlockWrapper :=
  cbw_of [1; 2; 3; 4] 1536 0x80 [0x28; 0; 0; 0; 0; 10; 0; 0; 3; 0; 0; 0; 0; 0; 0; 0].

(** The command of [write_10_wire] once parsed. *)
Definition write_10 : CommandBlockWrapper :=
  cbw_of [1; 2; 3; 4] 512 0 [0x2a; 0; 0; 0; 5; 0; 0; 0; 1; 0; 0; 0; 0; 0; 0; 0].

(** A freshly opened image of [n] zero bytes, as a sparse file gives. *)
Definition sparse_disk (n : Z) : DiskImage.t :=
  {| DiskImage.block_size := 512;
     DiskImage.size := n;
     DiskImage.image := replicate (Z.to_nat n) "000"%byte;
     DiskImage.medium := replicate (Z.to_nat n) "000"%byte;
     DiskImage.flushes := 0 |}.

(** Read Capacity(10). *)
Definition read_capacity : CommandBlockWrapper :=
  cbw_of [1; 2; 3; 4] 8 0x80 [0x25; 0; 0; 0; 0; 0; 0; 0; 0; 0; 0; 0; 0; 0; 0; 0].

(** The status wrapper of the specification (section 6): [USBS], the tag,
    a zero residue, the status byte. *)
Definition csw_wire (tag : bytes) (status : byte) : bytes :=
  lit "USBS" ++ tag ++ hex [0x00; 0x00; 0x00; 0x00] ++ [status].

(** ** Hex dumps *)

(** The digit [n] of a lower-case hexadecimal numeral, [n] below 16. *)
Definition hex_digit (n : N) : Ascii.ascii :=
  Ascii.ascii_of_N (if (n <? 10)%N then 48 + n else 87 + n).

(** ["%02x" % x] for an item [x] of a [bytes] object. *)
Definition format_02x (x : byte) : string :=
  String (hex_digit (Byte.to_N x / 16)) (String (hex_digit (Byte.to_N x mod 16)) EmptyString).

(** [delim.join(items)] *)
Fixpoint join (delim : string) (items : list string) : string :=
  match items with
  | [] => EmptyString
  | [s] => s
  | s :: rest => String.append s (String.append delim (join delim rest))
  end.

(** [bytes_as_hex(b, delim)] *)
Definition bytes_as_hex (b : bytes) (delim : string) : string :=
  join delim (map format_02x b).

(** The value of a hexadecimal digit, used to read a dump back. *)
Definition hex_value (c : Ascii.ascii) : N :=
  let n := Ascii.N_of_ascii c in
  (if n <? 58 then n - 48 else n - 87)%N.

(** ** What a computation leaves alone *)

(** [keeps R m]: whatever [m] does, returning or raising, the world it
    leaves is related by [R] to the world it started from. *)
Definition keeps (R : world -> world -> Prop) {A} (m : M A) : Prop :=
  forall w, R w (snd (m w)).

(** The disk image is untouched and no commit was made. *)
Definition same_disk (w w' : world) : Prop :=
  disk_image (self w') = disk_image (self w) /\ commits (log w') = commits (log w).

(** The interface object is untouched. *)
Definition same_self (w w' : world) : Prop := self w' = self w.

(** The log has only grown. *)
Definition log_extended (w w' : world) : Prop := exists evs, log w' = log w ++ evs.

(** Nothing was logged. *)
Definition same_log (w w' : world) : Prop := log w' = log w.

(** ** More concrete deliveries *)

(** Inquiry asking for 40 bytes, on the wire. *)
Definition inquiry_40_wire : bytes :=
  wire [1; 2; 3; 4] 40 0x80 [0x12; 0; 0; 0; 40; 0; 0; 0; 0; 0; 0; 0; 0; 0; 0; 0].

(** Read(10) of three blocks from address 10, on the wire. *)
Definition read_10_lba_10_wire : bytes :=
  wire [1; 2; 3; 4] 1536 0x80 [0x28; 0; 0; 0; 0; 10; 0; 0; 3; 0; 0; 0; 0; 0; 0; 0].

(** Test Unit Ready, on the wire. *)
Definition test_unit_ready_wire : bytes :=
  wire [9; 8; 7; 6] 0 0 [0x00; 0; 0; 0; 0; 0; 0; 0; 0; 0; 0; 0; 0; 0; 0; 0].

(** Mode Sense(6) for all pages. *)
Definition mode_sense_all : CommandBlockWrapper :=
  cbw_of [1; 2; 3; 4] 8 0x80 [0x1a; 0; 0x3f; 0; 8; 0; 0; 0; 0; 0; 0; 0; 0; 0; 0; 0].

(** Mode Sense(10) for page 8. *)
Definition mode_sense_page_8 : CommandBlockWrapper :=
  cbw_of [1; 2; 3; 4] 8 0x80 [0x5a; 0; 0x08; 0; 0; 0; 0; 0; 8; 0; 0; 0; 0; 0; 0; 0].

(** Read(10) cut off after its seventh command byte. *)
Definition read_10_truncated : CommandBlockWrapper :=
  cbw_of [1; 2; 3; 4] 512 0x80 [0x28; 0; 0; 0; 0; 2; 0].

(** Write(10) cut off after its eighth command byte. *)
Definition write_10_truncated : CommandBlockWrapper :=
  cbw_of [1; 2; 3; 4] 512 0 [0x2a; 0; 0; 0; 5; 0; 0; 0].

(** Inquiry with a four-byte command block. *)
Definition inquiry_truncated : CommandBlockWrapper :=
  cbw_of [1; 2; 3; 4] 36 0x80 [0x12; 0; 0; 0].

(** A delivery of exactly fifteen bytes: a wrapper with no command bytes. *)
Definition bare_wrapper_wire : bytes :=
  lit "USBC" ++ hex [1; 2; 3; 4; 0; 0; 0; 0; 0; 0; 0].

(** The eight bytes of a mode parameter header whose last byte is [last]. *)
Definition mode_sense_header (last : Z) : bytes :=
  hex [0x07; 0x00; 0x00; 0x00; 0x00; 0x00; 0x00; last].

(** Mode Sense(6) with a two-byte command block. *)
Definition mode_sense_truncated : CommandBlockWrapper :=
  cbw_of [1; 2; 3; 4] 8 0x80 [0x1a; 0].

(** An unregistered opcode asking for three bytes, on the wire. *)
Definition unknown_3_wire : bytes :=
  wire [1; 2; 3; 4] 3 0x80 [0x77; 0; 0; 0; 0; 0; 0; 0; 0; 0; 0; 0; 0; 0; 0; 0].

(** An image of 1300 bytes: two whole sectors and a tail of 276 bytes. *)
Definition ragged_disk : DiskImage.t := sparse_disk 1300.

(** An image smaller than one sector. *)
Definition tiny_disk : DiskImage.t := sparse_disk 100.

(** The interface right after construction over an image. *)
Definition world_over (d : DiskImage.t) : world :=
  {| self := interface_init d; log := [] |}.

(** The number a two-digit dump of one byte stands for. *)
Definition unformat_02x (s : string) : N :=
  match s with
  | String c1 (String c2 _) => (16 * hex_value c1 + hex_value c2)%N
  | _ => 0%N
  end.

(** [returns m w]: run from [w], the computation [m] does not raise. *)
Definition returns {A} (m : M A) (w : world) : Prop :=
  exists a w', m w = (Ok a, w').



(** * Properties *)

(** ** Python primitives *)

Section Primitives.

Context {A : Type}.
Implicit Types l : list A.

Lemma len_nonneg l : 0 ≤ len l.
Proof. unfold len. lia. Qed.

Lemma len_app l1 l2 : len (l1 ++ l2) = len l1 + len l2.
Proof. unfold len. rewrite length_app. lia. Qed.

Lemma slice_nonneg l a b :
  0 ≤ a → 0 ≤ b →
  slice l a b = take (Z.to_nat b - Z.to_nat a) (drop (Z.to_nat a) l).
Proof.
  intros Ha Hb. unfold slice, adjust_index, len.
  destruct (Z.ltb_spec a 0); [lia|]. destruct (Z.ltb_spec b 0); [lia|].
  destruct (Z_lt_le_dec a (Z.of_nat (length l))) as [Hlt|Hge].
  - rewrite (Z.min_l a) by lia.
    destruct (Z_le_gt_dec b (Z.of_nat (length l))) as [Hb'|Hb'].
    + rewrite (Z.min_l b) by lia. f_equal. lia.
    + rewrite (Z.min_r b) by lia.
      rewrite !take_ge; [done| |]; rewrite length_drop; lia.
  - rewrite (Z.min_r a) by lia.
    rewrite !drop_ge by lia. by rewrite !take_nil.
Qed.

Lemma slice_from_nonneg l a : 0 ≤ a → slice_from l a = drop (Z.to_nat a) l.
Proof.
  intros Ha. unfold slice_from. rewrite slice_nonneg by (auto using len_nonneg).
  apply take_ge. rewrite length_drop. unfold len. lia.
Qed.

Lemma slice_length_le l a b : 0 ≤ a → a ≤ b → len (slice l a b) ≤ b - a.
Proof.
  intros Ha Hb. rewrite slice_nonneg by lia. unfold len.
  rewrite length_take. lia.
Qed.

Lemma slice_length_inside l a b :
  0 ≤ a → a ≤ b → b ≤ len l → len (slice l a b) = b - a.
Proof.
  intros Ha Hb Hl. rewrite slice_nonneg by lia. unfold len in *.
  rewrite length_take, length_drop. lia.
Qed.

Lemma getitem_nonneg l i :
  0 ≤ i →
  getitem l i = match l !! Z.to_nat i with
                | Some x => Ok x
                | None => Raise IndexError
                end.
Proof.
  intros Hi. unfold getitem.
  destruct (Z.ltb_spec i 0); [lia|]. destruct (Z.ltb_spec i 0); [lia|]. done.
Qed.

Lemma getitem_outside l i : len l ≤ i → getitem l i = Raise IndexError.
Proof.
  intros Hi. pose proof (len_nonneg l). rewrite getitem_nonneg by lia.
  rewrite lookup_ge_None_2; [done|]. unfold len in *. lia.
Qed.

Lemma getitem_inside l i : 0 ≤ i → i < len l → ∃ x, getitem l i = Ok x.
Proof.
  intros Hi Hl. rewrite getitem_nonneg by lia.
  destruct (lookup_lt_is_Some_2 l (Z.to_nat i)) as [x ->]; [|eauto].
  unfold len in *. lia.
Qed.

End Primitives.

Lemma int_of_byte_range b : 0 ≤ int_of_byte b < 256.
Proof.
  unfold int_of_byte. pose proof (Byte.to_N_bounded b). lia.
Qed.

Lemma byte_of_int_of_byte b : byte_of_int (int_of_byte b) = Some b.
Proof.
  unfold byte_of_int. pose proof (int_of_byte_range b).
  destruct (Z.leb_spec 0 (int_of_byte b)); [|lia].
  destruct (Z.ltb_spec (int_of_byte b) 256); [|lia]. simpl.
  unfold int_of_byte. rewrite N2Z.id. apply Byte.of_to_N.
Qed.

Lemma int_of_byte_of_int z b : byte_of_int z = Some b → int_of_byte b = z.
Proof.
  unfold byte_of_int, int_of_byte.
  destruct (Z.leb_spec 0 z); [|done]. destruct (Z.ltb_spec z 256); [|done]. simpl.
  intros Hb. apply Byte.to_of_N in Hb. lia.
Qed.

Lemma byte_of_int_in_range z : 0 ≤ z < 256 → ∃ b, byte_of_int z = Some b ∧ int_of_byte b = z.
Proof.
  intros Hz. destruct (byte_of_int z) as [b|] eqn:E.
  - exists b. split; [done|]. by apply int_of_byte_of_int.
  - exfalso. unfold byte_of_int in E.
    destruct (Z.leb_spec 0 z); [|lia]. destruct (Z.ltb_spec z 256); [|lia]. simpl in E.
    apply Byte.of_N_None_iff in E. lia.
Qed.

Lemma bytes_of_ints_zeros n :
  bytes_of_ints (list_mul 0 n) = Ok (replicate (Z.to_nat n) "000"%byte).
Proof.
  unfold list_mul. induction (Z.to_nat n) as [|k IH]; [done|].
  simpl. by rewrite IH.
Qed.

Lemma bytes_of_ints_of_bytes (bs : bytes) : bytes_of_ints (map int_of_byte bs) = Ok bs.
Proof.
  induction bs as [|b bs IH]; [done|].
  simpl. rewrite byte_of_int_of_byte. by rewrite IH.
Qed.

(** ** Shifts and ors of bytes as sums *)

Lemma land_shiftl_low hi lo k :
  0 ≤ k → 0 ≤ lo < 2 ^ k → Z.land (Z.shiftl hi k) lo = 0.
Proof.
  intros Hk Hlo. apply Z.bits_inj'. intros n Hn.
  rewrite Z.land_spec, Z.bits_0.
  destruct (Z_lt_le_dec n k) as [Hlt|Hge].
  - rewrite Z.shiftl_spec_low by lia. done.
  - destruct (Z.eq_dec lo 0) as [->|Hne].
    + rewrite Z.bits_0. apply andb_false_r.
    + rewrite (Z.bits_above_log2 lo n); [apply andb_false_r|lia|].
      apply Z.lt_le_trans with k; [|done].
      apply Z.log2_lt_pow2; lia.
Qed.

Lemma lor_shiftl_add hi lo k :
  0 ≤ k → 0 ≤ lo < 2 ^ k → Z.lor (Z.shiftl hi k) lo = hi * 2 ^ k + lo.
Proof.
  intros Hk Hlo.
  rewrite <- Z.lxor_lor by (by apply land_shiftl_low).
  rewrite <- Z.add_nocarry_lxor by (by apply land_shiftl_low).
  by rewrite Z.shiftl_mul_pow2.
Qed.

Lemma lor_add_shiftl lo hi k :
  0 ≤ k → 0 ≤ lo < 2 ^ k → Z.lor lo (Z.shiftl hi k) = lo + hi * 2 ^ k.
Proof.
  intros Hk Hlo. rewrite Z.lor_comm, lor_shiftl_add by done. lia.
Qed.

(** [hi] is a multiple of [2 ^ k] and [lo] is below it. *)
Lemma lor_multiple_add h lo k :
  0 ≤ k → 0 ≤ lo < 2 ^ k → Z.lor (h * 2 ^ k) lo = h * 2 ^ k + lo.
Proof.
  intros Hk Hlo. rewrite <- (lor_shiftl_add h lo k) by done.
  by rewrite Z.shiftl_mul_pow2.
Qed.

Lemma be32_of_shifts b0 b1 b2 b3 :
  0 ≤ b0 < 256 → 0 ≤ b1 < 256 → 0 ≤ b2 < 256 → 0 ≤ b3 < 256 →
  Z.lor (Z.lor (Z.lor (Z.shiftl b0 24) (Z.shiftl b1 16)) (Z.shiftl b2 8)) b3
  = be32 b0 b1 b2 b3.
Proof.
  intros H0 H1 H2 H3. unfold be32.
  rewrite (Z.shiftl_mul_pow2 b1 16), (Z.shiftl_mul_pow2 b2 8) by lia.
  rewrite (lor_shiftl_add b0 (b1 * 2 ^ 16) 24) by lia.
  replace (b0 * 2 ^ 24 + b1 * 2 ^ 16) with ((b0 * 2 ^ 8 + b1) * 2 ^ 16) by lia.
  rewrite (lor_multiple_add _ (b2 * 2 ^ 8) 16) by lia.
  replace ((b0 * 2 ^ 8 + b1) * 2 ^ 16 + b2 * 2 ^ 8)
    with (((b0 * 2 ^ 8 + b1) * 2 ^ 8 + b2) * 2 ^ 8) by lia.
  rewrite (lor_multiple_add _ b3 8) by lia. lia.
Qed.

Lemma be16_of_shifts b0 b1 :
  0 ≤ b1 < 256 → Z.lor (Z.shiftl b0 8) b1 = be16 b0 b1.
Proof. intros H1. unfold be16. apply lor_shiftl_add; lia. Qed.

Lemma le32_of_shifts b0 b1 b2 b3 :
  0 ≤ b0 < 256 → 0 ≤ b1 < 256 → 0 ≤ b2 < 256 → 0 ≤ b3 < 256 →
  Z.lor (Z.lor (Z.lor b0 (Z.shiftl b1 8)) (Z.shiftl b2 16)) (Z.shiftl b3 24)
  = le32 b0 b1 b2 b3.
Proof.
  intros H0 H1 H2 H3. unfold le32.
  rewrite (lor_add_shiftl b0 b1 8) by lia.
  rewrite (lor_add_shiftl (b0 + b1 * 2 ^ 8) b2 16) by lia.
  rewrite (lor_add_shiftl _ b3 24) by lia. done.
Qed.

(** ** The command block wrapper parser *)

Lemma byte_at_cons_0 b (l : bytes) : byte_at (b :: l) 0 = Ok (int_of_byte b).
Proof. done. Qed.

Lemma byte_at_nonneg (l : list byte) i :
  0 ≤ i →
  byte_at l i = match l !! Z.to_nat i with
                | Some b => Ok (int_of_byte b)
                | None => Raise IndexError
                end.
Proof.
  intros Hi. unfold byte_at. rewrite getitem_nonneg by done.
  by destruct (l !! Z.to_nat i).
Qed.

Lemma byte_at_outside (l : bytes) i : len l ≤ i → byte_at l i = Raise IndexError.
Proof. intros Hi. unfold byte_at. by rewrite getitem_outside. Qed.

Lemma byte_at_range (l : bytes) i z : byte_at l i = Ok z → 0 ≤ z < 256.
Proof.
  unfold byte_at. destruct (getitem l i) as [b|e]; [|discriminate].
  intros [= <-]. apply int_of_byte_range.
Qed.

(** The parse of a delivery of fifteen bytes or more. *)
Lemma CommandBlockWrapper_init_long s0 s1 s2 s3 t0 t1 t2 t3 d0 d1 d2 d3 f l c rest :
  CommandBlockWrapper_init
    (s0 :: s1 :: s2 :: s3 :: t0 :: t1 :: t2 :: t3 ::
     d0 :: d1 :: d2 :: d3 :: f :: l :: c :: rest)
  = Ok {| signature := [s0; s1; s2; s3];
          tag := [t0; t1; t2; t3];
          data_transfer_length :=
            le32 (int_of_byte d0) (int_of_byte d1) (int_of_byte d2) (int_of_byte d3);
          flags := int_of_byte f;
          lun := Z.land (int_of_byte l) 0x0f;
          cb_length := Z.land (int_of_byte c) 0x1f;
          cb := rest |}.
Proof.
  unfold CommandBlockWrapper_init.
  rewrite !slice_nonneg, slice_from_nonneg by lia.
  rewrite !byte_at_nonneg by lia. simpl.
  rewrite le32_of_shifts by apply int_of_byte_range. done.
Qed.

Lemma CommandBlockWrapper_init_short (data : bytes) :
  (length data < 15)%nat → CommandBlockWrapper_init data = Raise IndexError.
Proof.
  intros Hlen. unfold CommandBlockWrapper_init.
  do 15 (destruct data as [|? data]; [by rewrite !byte_at_nonneg by lia|]).
  simpl in Hlen. lia.
Qed.

Lemma CommandBlockWrapper_init_ok (data : bytes) :
  (15 ≤ length data)%nat →
  ∃ cbw, CommandBlockWrapper_init data = Ok cbw
         ∧ tag cbw = take 4 (drop 4 data)
         ∧ cb cbw = drop 15 data
         ∧ length (tag cbw) = 4%nat.
Proof.
  intros Hlen.
  do 15 (destruct data as [|? data]; [simpl in Hlen; lia|]).
  rewrite CommandBlockWrapper_init_long. eexists. split; [done|]. done.
Qed.

(** C10. Every delivery is parsed before anything else is looked at, so a
    delivery shorter than fifteen bytes, a chunk of write data included,
    makes the entry point fail with IndexError, whatever the state of the
    write session; the parser succeeds exactly on deliveries of fifteen
    bytes or more. *)
Theorem short_delivery_raises_IndexError
    (module_data : option bytes) (data : bytes) (w : world) :
  (is_ok (CommandBlockWrapper_init data) ↔ 15 ≤ len data) ∧
  (len data < 15 →
   CommandBlockWrapper_init data = Raise IndexError ∧
   handle_data_available module_data data w = (Raise IndexError, w)).
Proof.
  split.
  - split.
    + intros [cbw Hcbw]. destruct (Z_lt_le_dec (len data) 15) as [Hlt|]; [|done].
      rewrite CommandBlockWrapper_init_short in Hcbw; [done|]. unfold len in Hlt. lia.
    + intros Hlen. destruct (CommandBlockWrapper_init_ok data) as (cbw & -> & _).
      * unfold len in Hlen. lia.
      * by exists cbw.
  - intros Hlen.
    assert (CommandBlockWrapper_init data = Raise IndexError) as Hparse.
    { apply CommandBlockWrapper_init_short. unfold len in Hlen. lia. }
    split; [done|].
    unfold handle_data_available, mbind, M_bind, bind, lift. by rewrite Hparse.
Qed.

Lemma short_delivery_raises_IndexError_witness :
  len (chunk 10) < 15 ∧
  is_write_in_progress (self accumulating_world) = true ∧
  handle_data_available None (chunk 10) accumulating_world
  = (Raise IndexError, accumulating_world).
Proof.
  split; [reflexivity|]. split; [reflexivity|].
  apply (short_delivery_raises_IndexError None (chunk 10) accumulating_world).
  reflexivity.
Defined.

(** ** The round trip through the wire layout *)

Lemma le32_bytes_value n :
  0 ≤ n < 2 ^ 32 →
  le32 (n mod 256) (n / 2 ^ 8 mod 256) (n / 2 ^ 16 mod 256) (n / 2 ^ 24 mod 256) = n.
Proof.
  intros Hn. unfold le32.
  change (2 ^ 8) with 256. change (2 ^ 16) with (256 * 256).
  change (2 ^ 24) with (256 * 256 * 256).
  change (2 ^ 32) with (256 * 256 * 256 * 256) in Hn.
  rewrite <- !Z.div_div by lia.
  pose proof (Z.div_mod n 256). pose proof (Z.div_mod (n / 256) 256).
  pose proof (Z.div_mod (n / 256 / 256) 256).
  assert (n / 256 / 256 / 256 < 256).
  { rewrite !Z.div_div by lia. apply Z.div_lt_upper_bound; lia. }
  assert (0 ≤ n / 256 / 256 / 256).
  { repeat apply Z.div_pos; lia. }
  rewrite (Z.mod_small (n / 256 / 256 / 256)) by lia. lia.
Qed.

Lemma land_low_bits x r k :
  0 ≤ k → 0 ≤ x < 2 ^ k → Z.land (x + 2 ^ k * r) (2 ^ k - 1) = x.
Proof.
  intros Hk Hx.
  replace (2 ^ k - 1) with (Z.ones k) by (rewrite Z.ones_equiv; lia).
  rewrite Z.land_ones by done.
  replace (x + 2 ^ k * r) with (x + r * 2 ^ k) by lia.
  rewrite Z.mod_add by lia. by apply Z.mod_small.
Qed.

(** C9. A command block wrapper laid out on the wire from a four-byte
    signature and tag, a 32-bit transfer length, a flags byte, a LUN of at
    most 0x0F in the low bits of byte 13, a command block length of at most
    0x1F in the low bits of byte 14 and the command bytes parses back to
    exactly those fields. *)
Theorem cbw_wire_round_trip
    (sig tg command : bytes) (dtl fl ln cbl r13 r14 : Z) :
  length sig = 4%nat → length tg = 4%nat →
  0 ≤ dtl < 2 ^ 32 → 0 ≤ fl < 256 →
  0 ≤ ln ≤ 0x0f → 0 ≤ r13 < 16 →
  0 ≤ cbl ≤ 0x1f → 0 ≤ r14 < 8 →
  ∃ w : bytes,
    cbw_wire sig tg dtl fl (ln + 16 * r13) (cbl + 32 * r14) command = Ok w ∧
    len w = 15 + len command ∧
    CommandBlockWrapper_init w
    = Ok {| signature := sig; tag := tg; data_transfer_length := dtl;
            flags := fl; lun := ln; cb_length := cbl; cb := command |}.
Proof.
  intros Hsig Htag Hdtl Hfl Hln Hr13 Hcbl Hr14.
  destruct (byte_of_int_in_range (dtl mod 256)) as (d0 & E0 & V0);
    [apply Z.mod_pos_bound; lia|].
  destruct (byte_of_int_in_range (dtl / 2 ^ 8 mod 256)) as (d1 & E1 & V1);
    [apply Z.mod_pos_bound; lia|].
  destruct (byte_of_int_in_range (dtl / 2 ^ 16 mod 256)) as (d2 & E2 & V2);
    [apply Z.mod_pos_bound; lia|].
  destruct (byte_of_int_in_range (dtl / 2 ^ 24 mod 256)) as (d3 & E3 & V3);
    [apply Z.mod_pos_bound; lia|].
  destruct (byte_of_int_in_range fl) as (bf & Ef & Vf); [lia|].
  destruct (byte_of_int_in_range (ln + 16 * r13)) as (bl & El & Vl); [lia|].
  destruct (byte_of_int_in_range (cbl + 32 * r14)) as (bc & Ec & Vc); [lia|].
  destruct sig as [|s0 [|s1 [|s2 [|s3 [|]]]]]; try discriminate.
  destruct tg as [|t0 [|t1 [|t2 [|t3 [|]]]]]; try discriminate.
  exists ([s0; s1; s2; s3] ++ [t0; t1; t2; t3] ++ [d0; d1; d2; d3; bf; bl; bc] ++ command).
  split; [|split].
  - unfold cbw_wire, le32_bytes. simpl. by rewrite E0, E1, E2, E3, Ef, El, Ec.
  - unfold len. simpl. lia.
  - simpl. rewrite CommandBlockWrapper_init_long.
    rewrite V0, V1, V2, V3, Vf, Vl, Vc.
    rewrite le32_bytes_value by done.
    rewrite (land_low_bits ln r13 4 ltac:(lia) ltac:(lia) : Z.land (ln + 16 * r13) 0x0f = ln).
    rewrite (land_low_bits cbl r14 5 ltac:(lia) ltac:(lia) : Z.land (cbl + 32 * r14) 0x1f = cbl).
    done.
Qed.

Lemma cbw_wire_round_trip_witness :
  CommandBlockWrapper_init write_10_wire
  = Ok {| signature := lit "USBC"; tag := hex [1; 2; 3; 4];
          data_transfer_length := 512; flags := 0; lun := 0; cb_length := 10;
          cb := hex [0x2a; 0; 0; 0; 5; 0; 0; 0; 1; 0; 0; 0; 0; 0; 0; 0] |}.
Proof.
  destruct (cbw_wire_round_trip (lit "USBC") (hex [1; 2; 3; 4])
              (hex [0x2a; 0; 0; 0; 5; 0; 0; 0; 1; 0; 0; 0; 0; 0; 0; 0])
              512 0 0 10 0 0) as (w & Hw & _ & Hparse);
    [reflexivity | reflexivity | lia | lia | lia | lia | lia | lia |].
  unfold write_10_wire, wire. change (0 + 16 * 0) with 0 in Hw.
  change (10 + 32 * 0) with 10 in Hw. rewrite Hw. exact Hparse.
Defined.

(** ** The dispatch table *)

Lemma commands_lookup_None (opcode : Z) :
  commands !! opcode = None ↔
  opcode ∉ [0x00; 0x03; 0x12; 0x1a; 0x5a; 0x1e; 0x23; 0x25; 0x28; 0x2a; 0x36].
Proof.
  unfold commands, _register_scsi_command.
  rewrite !lookup_insert_None, lookup_empty, !not_elem_of_cons.
  pose proof (not_elem_of_nil opcode). intuition congruence.
Qed.

Lemma commands_handlers :
  d_handler <$> commands !! 0x00 = Some Handle_ignored_event ∧
  d_handler <$> commands !! 0x03 = Some Handle_sense ∧
  d_handler <$> commands !! 0x12 = Some Handle_inquiry ∧
  d_handler <$> commands !! 0x1a = Some Handle_mode_sense ∧
  d_handler <$> commands !! 0x5a = Some Handle_mode_sense ∧
  d_handler <$> commands !! 0x1e = Some Handle_ignored_event ∧
  d_handler <$> commands !! 0x23 = Some Handle_get_format_capacity ∧
  d_handler <$> commands !! 0x25 = Some Handle_get_read_capacity ∧
  d_handler <$> commands !! 0x28 = Some Handle_read ∧
  d_handler <$> commands !! 0x2a = Some Handle_write ∧
  d_handler <$> commands !! 0x36 = Some Handle_ignored_event.
Proof. repeat split; reflexivity. Qed.

(** Unfolding of the monad of the interface. *)
Ltac run :=
  unfold mbind, M_bind, mret, M_ret, bind, ret, lift, gets, modify, emit, raise;
  simpl.

(** One step of a sequence whose first computation is known. *)
Lemma run_bind {A B} (m : M A) (k : A → M B) (w w' : world) (a : A) :
  m w = (Ok a, w') → (m ≫= k) w = k a w'.
Proof. intros H. unfold mbind, M_bind, bind. by rewrite H. Qed.

Lemma run_bind_raise {A B} (m : M A) (k : A → M B) (w w' : world) (e : exn) :
  m w = (Raise e, w') → (m ≫= k) w = (Raise e, w').
Proof. intros H. unfold mbind, M_bind, bind. by rewrite H. Qed.

Lemma run_lift {A} (r : result A) (w : world) : lift r w = (r, w).
Proof. done. Qed.

(** Step over [x ← lift r; ...] when [H : r = Ok a]. *)
Ltac step_lift H :=
  erewrite run_bind by (rewrite run_lift, H; reflexivity).

(** Dispatch of an opcode to the handler the table gives it. *)
Lemma handle_scsi_command_dispatch cbw opcode command w :
  byte_at (cb cbw) 0 = Ok opcode →
  commands !! opcode = Some command →
  handle_scsi_command cbw w = call_handler (d_handler command) cbw w.
Proof.
  intros Hop Hcmd. unfold handle_scsi_command. run. rewrite Hop. by rewrite Hcmd.
Qed.

(** C3. A command whose opcode is not in the dispatch table returns
    FAILURE; with a positive transfer length N the response is exactly N
    zero bytes, with N = 0 there is no response.  Nothing is sent and the
    interface is unchanged. *)
Theorem unknown_opcode_zero_filled_failure
    (cbw : CommandBlockWrapper) (opcode : Z) (w : world) :
  byte_at (cb cbw) 0 = Ok opcode →
  commands !! opcode = None →
  (0 < data_transfer_length cbw →
   handle_scsi_command cbw w
   = (Ok (STATUS_FAILURE,
          Some (replicate (Z.to_nat (data_transfer_length cbw)) "000"%byte)), w)
   ∧ len (replicate (Z.to_nat (data_transfer_length cbw)) "000"%byte)
     = data_transfer_length cbw)
  ∧ (data_transfer_length cbw = 0 →
     handle_scsi_command cbw w = (Ok (STATUS_FAILURE, None), w)).
Proof.
  intros Hop Hcmd.
  assert (handle_scsi_command cbw w = handle_unknown_command cbw w) as ->.
  { unfold handle_scsi_command. run. rewrite Hop. by rewrite Hcmd. }
  unfold handle_unknown_command. split.
  - intros Hpos. run. destruct (Z.ltb_spec 0 (data_transfer_length cbw)); [|lia].
    rewrite bytes_of_ints_zeros. split; [done|].
    unfold len. rewrite length_replicate. lia.
  - intros ->. done.
Qed.

Lemma unknown_opcode_zero_filled_failure_witness :
  handle_scsi_command unknown_3 (fresh_world 8)
  = (Ok (STATUS_FAILURE, Some (replicate 3 "000"%byte)), fresh_world 8)
  ∧ handle_scsi_command unknown_0 (fresh_world 8)
    = (Ok (STATUS_FAILURE, None), fresh_world 8).
Proof.
  split.
  - apply (unknown_opcode_zero_filled_failure unknown_3 0x77 (fresh_world 8));
      [reflexivity | reflexivity | reflexivity].
  - apply (unknown_opcode_zero_filled_failure unknown_0 0x77 (fresh_world 8));
      [reflexivity | reflexivity | reflexivity].
Defined.

(** ** Inquiry *)

Lemma slice_prefix_6 (l : bytes) :
  6 ≤ len l → ∃ b0 b1 b2 b3 b4 b5, slice l 0 6 = [b0; b1; b2; b3; b4; b5].
Proof.
  intros Hl. rewrite slice_nonneg by lia.
  do 6 (destruct l as [|? l]; [unfold len in Hl; simpl in Hl; lia|]).
  simpl. rewrite take_0. eauto 7.
Qed.

(** C4, counterexample. Inquiry with a transfer length of 5 answers with
    the 36 bytes of inquiry data: the response is not 5 bytes long. *)
Lemma inquiry_response_exceeds_transfer_length :
  handle_scsi_command inquiry_5 (fresh_world 8)
  = (Ok (STATUS_OKAY, Some standard_inquiry_data), fresh_world 8)
  ∧ len standard_inquiry_data ≠ data_transfer_length inquiry_5.
Proof. split; [reflexivity | discriminate]. Qed.

(** C4, as the code has it. Inquiry over a command block of at least six
    bytes returns OKAY with the 36 bytes of inquiry data followed by
    [data_transfer_length - 36] zero bytes, none when the transfer length
    is below 36: the response is [max 36 data_transfer_length] bytes long,
    so exactly [data_transfer_length] bytes from 36 on. *)
Theorem inquiry_pads_up_to_transfer_length (cbw : CommandBlockWrapper) (w : world) :
  byte_at (cb cbw) 0 = Ok 0x12 →
  6 ≤ len (cb cbw) →
  let response :=
    standard_inquiry_data
    ++ replicate (Z.to_nat (data_transfer_length cbw - 36)) "000"%byte in
  handle_scsi_command cbw w = (Ok (STATUS_OKAY, Some response), w)
  ∧ len response = Z.max 36 (data_transfer_length cbw)
  ∧ (36 ≤ data_transfer_length cbw → len response = data_transfer_length cbw).
Proof.
  intros Hop Hcb response.
  assert (len response = Z.max 36 (data_transfer_length cbw)) as Hlen.
  { unfold response. rewrite len_app. unfold len at 2. rewrite length_replicate.
    change (len standard_inquiry_data) with 36. lia. }
  split; [|split; [done | lia]].
  rewrite (handle_scsi_command_dispatch cbw 0x12
             {| d_number := 0x12; d_name := "Inquiry"; d_handler := Handle_inquiry |})
    by done.
  simpl. unfold handle_inquiry.
  destruct (slice_prefix_6 (cb cbw) Hcb) as (b0 & b1 & b2 & b3 & b4 & b5 & Hslice).
  run. rewrite Hslice. simpl.
  change (len _) with 36. by rewrite bytes_of_ints_zeros.
Qed.

Lemma inquiry_pads_up_to_transfer_length_witness :
  handle_scsi_command inquiry_40 (fresh_world 8)
  = (Ok (STATUS_OKAY, Some (standard_inquiry_data ++ replicate 4 "000"%byte)),
     fresh_world 8)
  ∧ len (standard_inquiry_data ++ replicate 4 "000"%byte) = 40.
Proof.
  destruct (inquiry_pads_up_to_transfer_length inquiry_40 (fresh_world 8))
    as (Hrun & _ & Hlen); [reflexivity | vm_compute; discriminate |].
  split; [exact Hrun | apply Hlen; vm_compute; discriminate].
Defined.

(** ** Read(10) *)

Lemma for_each_read_sectors (base : Z) (l : list Z) (w : world) :
  for_each l (fun block_num =>
    data ← disk_get_sector_data (base + block_num);
    ep_to_host_send data false) w
  = (Ok tt, {| self := self w;
               log := log w ++ sector_stream (disk_image (self w)) (Z.add base <$> l) |}).
Proof.
  revert w. induction l as [|i l IH]; intros w.
  - simpl. unfold ret. rewrite app_nil_r. by destruct w.
  - simpl. unfold disk_get_sector_data, ep_to_host_send. run.
    rewrite IH. simpl. by rewrite <- !app_assoc.
Qed.

Lemma sector_reads_stream d l : sector_reads (sector_stream d l) = l.
Proof.
  induction l as [|x l IH]; [done|].
  unfold sector_reads, sector_stream in *. simpl. by rewrite IH.
Qed.

Lemma get_sector_data_window d lba :
  DiskImage.block_size d = 512 →
  DiskImage.get_sector_data d lba
  = slice (DiskImage.image d) (lba * 512) (lba * 512 + 512).
Proof.
  intros Hbs. unfold DiskImage.get_sector_data. rewrite Hbs. f_equal. lia.
Qed.

Lemma get_sector_data_length_le d lba :
  DiskImage.block_size d = 512 → 0 ≤ lba →
  len (DiskImage.get_sector_data d lba) ≤ 512.
Proof.
  intros Hbs Hlba. rewrite get_sector_data_window by done.
  pose proof (slice_length_le (DiskImage.image d) (lba * 512) (lba * 512 + 512)). lia.
Qed.

Lemma get_sector_data_length_inside d lba :
  DiskImage.block_size d = 512 → 0 ≤ lba →
  (lba + 1) * 512 ≤ len (DiskImage.image d) →
  len (DiskImage.get_sector_data d lba) = 512.
Proof.
  intros Hbs Hlba Hin. rewrite get_sector_data_window by done.
  rewrite slice_length_inside; lia.
Qed.

(** C5, counterexample. On an image of two sectors, Read(10) of one block
    at address 2 reads past the end of the image: the sector it sends is
    empty, not 512 bytes long. *)
Lemma read_10_past_the_end_sends_short_sector :
  handle_scsi_command read_10_lba_2 (fresh_world 2)
  = (Ok (STATUS_OKAY, None),
     {| self := self (fresh_world 2); log := [GetSector 2; Send [] false] |})
  ∧ sent [GetSector 2; Send [] false] = [[]]
  ∧ len ([] : bytes) ≠ 512.
Proof. split; [reflexivity | split; [reflexivity | discriminate]]. Qed.

(** C5, as the code has it. Read(10) with base address B in command bytes
    2 to 5 and block count K in bytes 7 and 8, both big-endian, makes
    exactly K sector reads at B, B+1, ..., B+K-1 in that order, sends what
    each read returns at once, and returns OKAY with no response.  Each
    read returns the part of the 512-byte window at its address that lies
    inside the image: 512 bytes for a sector inside the image, fewer past
    its end. *)
Theorem read_10_streams_sectors
    (cbw : CommandBlockWrapper) (w : world) (c2 c3 c4 c5 c6 c7 c8 : Z) :
  byte_at (cb cbw) 0 = Ok 0x28 →
  byte_at (cb cbw) 2 = Ok c2 → byte_at (cb cbw) 3 = Ok c3 →
  byte_at (cb cbw) 4 = Ok c4 → byte_at (cb cbw) 5 = Ok c5 →
  byte_at (cb cbw) 7 = Ok c7 → byte_at (cb cbw) 8 = Ok c8 →
  DiskImage.block_size (disk_image (self w)) = 512 →
  let d := disk_image (self w) in
  let B := be32 c2 c3 c4 c5 in
  let K := be16 c7 c8 in
  handle_scsi_command cbw w
  = (Ok (STATUS_OKAY, None),
     {| self := self w; log := log w ++ sector_stream d (seqZ B K) |})
  ∧ sector_reads (sector_stream d (seqZ B K)) = seqZ B K
  ∧ length (seqZ B K) = Z.to_nat K
  ∧ (∀ lba, lba ∈ seqZ B K →
       DiskImage.get_sector_data d lba
       = slice (DiskImage.image d) (lba * 512) (lba * 512 + 512)
       ∧ len (DiskImage.get_sector_data d lba) ≤ 512
       ∧ ((lba + 1) * 512 ≤ len (DiskImage.image d) →
          len (DiskImage.get_sector_data d lba) = 512)).
Proof.
  intros Hop H2 H3 H4 H5 H7 H8 Hbs d B K.
  pose proof (byte_at_range _ _ _ H2). pose proof (byte_at_range _ _ _ H3).
  pose proof (byte_at_range _ _ _ H4). pose proof (byte_at_range _ _ _ H5).
  pose proof (byte_at_range _ _ _ H7). pose proof (byte_at_range _ _ _ H8).
  split; [|split; [|split]].
  - rewrite (handle_scsi_command_dispatch cbw 0x28
               {| d_number := 0x28; d_name := "Read"; d_handler := Handle_read |})
      by done.
    simpl. unfold handle_read.
    step_lift H2. step_lift H3. step_lift H4. step_lift H5.
    step_lift H7. step_lift H8.
    rewrite be32_of_shifts, be16_of_shifts by done.
    erewrite run_bind by apply for_each_read_sectors.
    unfold range. rewrite fmap_add_seqZ, Z.add_0_r. done.
  - apply sector_reads_stream.
  - apply length_seqZ.
  - intros lba Hin. apply elem_of_seqZ in Hin.
    assert (0 ≤ lba) by (unfold B, be32 in Hin; lia).
    split; [by apply get_sector_data_window|].
    split; [by apply get_sector_data_length_le|].
    by apply get_sector_data_length_inside.
Qed.

Lemma read_10_streams_sectors_witness :
  handle_scsi_command read_10_lba_10 (fresh_world 16)
  = (Ok (STATUS_OKAY, None),
     {| self := self (fresh_world 16);
        log := sector_stream (blank_disk 16) [10; 11; 12] |})
  ∧ sector_reads (sector_stream (blank_disk 16) [10; 11; 12]) = [10; 11; 12]
  ∧ Forall (fun data => len data = 512) (sent (sector_stream (blank_disk 16) [10; 11; 12])).
Proof.
  destruct (read_10_streams_sectors read_10_lba_10 (fresh_world 16) 0 0 0 10 0 0 3)
    as (Hrun & Hreads & _ & _); try reflexivity.
  split; [exact Hrun | split; [exact Hreads|]].
  repeat constructor.
Defined.

(** ** Write(10) *)

(** C6. Write(10) reads its starting address from command bytes 1 to 4 and
    its block count from bytes 7 and 8, both big-endian, records the
    command, the address and the expected length of 512 bytes per block,
    marks the write as in progress and returns INCOMPLETE; the entry point
    then returns with nothing sent: the log is unchanged. *)
Theorem write_10_opens_session
    (module_data : option bytes) (data : bytes) (cbw : CommandBlockWrapper)
    (w : world) (c1 c2 c3 c4 c7 c8 : Z) :
  CommandBlockWrapper_init data = Ok cbw →
  is_write_in_progress (self w) = false →
  byte_at (cb cbw) 0 = Ok 0x2a →
  byte_at (cb cbw) 1 = Ok c1 → byte_at (cb cbw) 2 = Ok c2 →
  byte_at (cb cbw) 3 = Ok c3 → byte_at (cb cbw) 4 = Ok c4 →
  byte_at (cb cbw) 7 = Ok c7 → byte_at (cb cbw) 8 = Ok c8 →
  DiskImage.block_size (disk_image (self w)) = 512 →
  let w' :=
    {| self := {| disk_image := disk_image (self w);
                  is_write_in_progress := true;
                  write_cbw := Some cbw;
                  write_base_lba := be32 c1 c2 c3 c4;
                  write_length := be16 c7 c8 * 512;
                  write_data := write_data (self w) |};
       log := log w |} in
  handle_scsi_command cbw w = (Ok (STATUS_INCOMPLETE, None), w')
  ∧ handle_data_available module_data data w = (Ok tt, w').
Proof.
  intros Hparse Hidle Hop H1 H2 H3 H4 H7 H8 Hbs w'.
  pose proof (byte_at_range _ _ _ H1). pose proof (byte_at_range _ _ _ H2).
  pose proof (byte_at_range _ _ _ H3). pose proof (byte_at_range _ _ _ H4).
  pose proof (byte_at_range _ _ _ H7). pose proof (byte_at_range _ _ _ H8).
  assert (handle_scsi_command cbw w = (Ok (STATUS_INCOMPLETE, None), w')) as Hscsi.
  { rewrite (handle_scsi_command_dispatch cbw 0x2a
               {| d_number := 0x2a; d_name := "Write"; d_handler := Handle_write |})
      by done.
    simpl. unfold handle_write.
    step_lift H1. step_lift H2. step_lift H3. step_lift H4.
    step_lift H7. step_lift H8.
    rewrite be32_of_shifts, be16_of_shifts by done.
    run. rewrite Hbs. done. }
  split; [done|].
  unfold handle_data_available. step_lift Hparse.
  erewrite run_bind by (unfold gets; rewrite Hidle; reflexivity).
  erewrite run_bind by apply Hscsi.
  done.
Qed.

Lemma write_10_wire_parses : CommandBlockWrapper_init write_10_wire = Ok write_10.
Proof. reflexivity. Qed.

Lemma write_10_opens_session_witness :
  handle_data_available None write_10_wire (fresh_world 8)
  = (Ok tt,
     {| self := {| disk_image := blank_disk 8;
                   is_write_in_progress := true;
                   write_cbw := Some write_10;
                   write_base_lba := 5;
                   write_length := 512;
                   write_data := [] |};
        log := [] |}).
Proof.
  apply (write_10_opens_session None write_10_wire write_10 (fresh_world 8) 0 0 0 5 0 1);
    reflexivity.
Defined.

(** ** The sector count and Read Capacity(10) *)

Lemma truediv_pos_512 (S : Z) :
  0 < S < 2 ^ 53 →
  ∃ sh, 9 ≤ sh ∧ truediv_pos S 512 = Ok (Float (S * 2 ^ (sh - 9)) (- sh)).
Proof.
  intros HS. unfold truediv_pos. change (Z.log2 512) with 9.
  assert (0 ≤ Z.log2 S ≤ 52) as Hlog.
  { split; [apply Z.log2_nonneg|].
    assert (Z.log2 S < 53) by (apply Z.log2_lt_pow2; lia). lia. }
  set (e0 := Z.log2 S - 9).
  set (ex := if scaled_le 512 e0 S then e0 else e0 - 1).
  assert (e0 - 1 ≤ ex ≤ e0) as Hex by (unfold ex; destruct (scaled_le _ _ _); lia).
  unfold e0 in Hex.
  destruct (Z.ltb_spec 1023 ex); [lia|].
  rewrite Z.max_l by lia. exists (52 - ex). split; [lia|].
  destruct (Z.leb_spec 0 (52 - ex)); [|lia].
  f_equal. f_equal. unfold round_half_even.
  replace (S * 2 ^ (52 - ex)) with (S * 2 ^ (52 - ex - 9) * 512).
  - rewrite Z.mod_mul, Z.div_mul by lia. done.
  - rewrite <- Z.mul_assoc. f_equal. change 512 with (2 ^ 9).
    rewrite <- Z.pow_add_r by lia. f_equal. lia.
Qed.

(** Below [2 ^ 53] bytes the float quotient by 512 is exact, and [int()]
    of it is the integer quotient. *)
Lemma int_truediv_512 (S : Z) :
  0 ≤ S < 2 ^ 53 →
  ∃ q, truediv S 512 = Ok q ∧ int_of_float q = S / 512.
Proof.
  intros HS. destruct (Z.eq_dec S 0) as [->|Hne].
  - exists (Float 0 0). done.
  - unfold truediv. simpl (512 =? 0). cbv iota.
    destruct (Z.eqb_spec S 0); [done|].
    rewrite (Z.abs_eq S) by lia. change (Z.abs 512) with 512.
    destruct (truediv_pos_512 S) as (sh & Hsh & ->); [lia|].
    eexists. split; [done|].
    rewrite Z.sgn_pos by lia. change (Z.sgn 512) with 1.
    unfold int_of_float. simpl Fexp. simpl Fnum.
    destruct (Z.leb_spec 0 (- sh)); [lia|].
    rewrite Z.opp_involutive, !Z.mul_1_l.
    rewrite Z.quot_div_nonneg by (try apply Z.mul_nonneg_nonneg; lia).
    replace (2 ^ sh) with (2 ^ 9 * 2 ^ (sh - 9)).
    + rewrite Z.div_mul_cancel_r by lia. done.
    + rewrite <- Z.pow_add_r by lia. f_equal. lia.
Qed.

Lemma get_sector_count_exact (d : DiskImage.t) :
  DiskImage.block_size d = 512 →
  0 ≤ DiskImage.size d < 2 ^ 53 →
  DiskImage.get_sector_count d = Ok (DiskImage.size d / 512 - 1).
Proof.
  intros Hbs Hsize. unfold DiskImage.get_sector_count. rewrite Hbs.
  destruct (int_truediv_512 (DiskImage.size d) Hsize) as (q & -> & Hq).
  simpl. by rewrite Hq.
Qed.

Lemma sparse_disk_opened (n : Z) : 0 ≤ n → DiskImage.opened (sparse_disk n).
Proof.
  intros Hn. split; [|done]. simpl. unfold len. rewrite length_replicate. lia.
Qed.

(** C7, counterexample. For an image of [2 ^ 53 + 511] bytes the float
    quotient by 512 rounds up to [2 ^ 44 + 1]: the sector count comes out
    as [2 ^ 44], one more than [floor (size / 512) - 1]. *)
Lemma get_sector_count_rounds_up :
  DiskImage.get_sector_count (sparse_disk (2 ^ 53 + 511)) = Ok (2 ^ 44)
  ∧ (2 ^ 53 + 511) / 512 - 1 = 2 ^ 44 - 1.
Proof. split; reflexivity. Qed.

(** The byte of [l] at bit offset [k], read off its residue modulo [2 ^ 32]. *)
Lemma byte_of_shift (l k : Z) :
  0 ≤ k ≤ 24 →
  Z.land (Z.shiftr l k) 0xff = (l mod 2 ^ 32) / 2 ^ k mod 256.
Proof.
  intros Hk. change 0xff with (Z.ones 8).
  rewrite Z.land_ones, Z.shiftr_div_pow2 by lia. change (2 ^ 8) with 256.
  rewrite (Z.div_mod l (2 ^ 32)) at 1 by lia.
  replace (2 ^ 32 * (l / 2 ^ 32) + l mod 2 ^ 32)
    with (l mod 2 ^ 32 + (l / 2 ^ 32 * 2 ^ (32 - k)) * 2 ^ k).
  - rewrite Z.div_add by lia.
    replace (l / 2 ^ 32 * 2 ^ (32 - k)) with (l / 2 ^ 32 * 2 ^ (24 - k) * 256).
    + by rewrite Z.mod_add by lia.
    + rewrite <- Z.mul_assoc. f_equal. change 256 with (2 ^ 8).
      rewrite <- Z.pow_add_r by lia. f_equal. lia.
  - rewrite <- Z.mul_assoc, <- Z.pow_add_r by lia.
    replace (32 - k + k) with 32 by lia. lia.
Qed.

Lemma be32_of_bytes_of (l : Z) :
  be32 (Z.land (Z.shiftr l 24) 0xff) (Z.land (Z.shiftr l 16) 0xff)
       (Z.land (Z.shiftr l 8) 0xff) (Z.land l 0xff)
  = l mod 2 ^ 32.
Proof.
  rewrite <- (Z.shiftr_0_r l) at 4.
  rewrite !byte_of_shift by lia. rewrite Z.div_1_r.
  pose proof (le32_bytes_value (l mod 2 ^ 32)) as H.
  unfold le32 in H. unfold be32.
  rewrite <- H at 5 by (apply Z.mod_pos_bound; lia). lia.
Qed.

(** C7, as the code has it. For an image of fewer than [2 ^ 53] bytes with
    512-byte sectors the sector count is [floor (size / 512) - 1]: the
    float quotient the code takes is exact in that range.  Read
    Capacity(10) then returns OKAY with eight bytes: the low 32 bits of
    that value, most significant byte first, then 00 00 02 00. *)
Theorem read_capacity_reports_sector_count (cbw : CommandBlockWrapper) (w : world) :
  DiskImage.block_size (disk_image (self w)) = 512 →
  0 ≤ DiskImage.size (disk_image (self w)) < 2 ^ 53 →
  let lastlba := DiskImage.size (disk_image (self w)) / 512 - 1 in
  DiskImage.get_sector_count (disk_image (self w)) = Ok lastlba
  ∧ (byte_at (cb cbw) 0 = Ok 0x25 →
     ∃ b0 b1 b2 b3 : byte,
       handle_scsi_command cbw w
       = (Ok (STATUS_OKAY, Some ([b0; b1; b2; b3] ++ hex [0x00; 0x00; 0x02; 0x00])), w)
       ∧ be32 (int_of_byte b0) (int_of_byte b1) (int_of_byte b2) (int_of_byte b3)
         = lastlba mod 2 ^ 32).
Proof.
  intros Hbs Hsize lastlba.
  assert (DiskImage.get_sector_count (disk_image (self w)) = Ok lastlba) as Hcount
    by (by apply get_sector_count_exact).
  split; [done|]. intros Hop.
  assert (∀ k, 0 ≤ Z.land (Z.shiftr lastlba k) 0xff < 256) as Hbyte.
  { intros k. change 0xff with (Z.ones 8). rewrite Z.land_ones by lia.
    apply Z.mod_pos_bound. lia. }
  destruct (byte_of_int_in_range _ (Hbyte 24)) as (b0 & E0 & V0).
  destruct (byte_of_int_in_range _ (Hbyte 16)) as (b1 & E1 & V1).
  destruct (byte_of_int_in_range _ (Hbyte 8)) as (b2 & E2 & V2).
  destruct (byte_of_int_in_range _ (Hbyte 0)) as (b3 & E3 & V3).
  rewrite Z.shiftr_0_r in E3, V3.
  exists b0, b1, b2, b3. split.
  - assert (bytes_of_ints
              [Z.land (Z.shiftr lastlba 24) 0xff; Z.land (Z.shiftr lastlba 16) 0xff;
               Z.land (Z.shiftr lastlba 8) 0xff; Z.land lastlba 0xff;
               0x00; 0x00; 0x02; 0x00]
            = Ok ([b0; b1; b2; b3] ++ hex [0x00; 0x00; 0x02; 0x00])) as Hbytes.
    { cbn [bytes_of_ints]. rewrite E0, E1, E2, E3. reflexivity. }
    rewrite (handle_scsi_command_dispatch cbw 0x25
               {| d_number := 0x25; d_name := "Get Read Capacity";
                  d_handler := Handle_get_read_capacity |}) by done.
    cbn [call_handler d_handler]. unfold handle_get_read_capacity.
    erewrite run_bind
      by (unfold disk_get_sector_count;
          erewrite run_bind by (unfold gets; reflexivity);
          rewrite run_lift, Hcount; reflexivity).
    step_lift Hbytes. reflexivity.
  - rewrite V0, V1, V2, V3. apply be32_of_bytes_of.
Qed.

Lemma read_capacity_reports_sector_count_witness :
  DiskImage.get_sector_count (blank_disk 8) = Ok 7
  ∧ ∃ b0 b1 b2 b3 : byte,
      handle_scsi_command read_capacity (fresh_world 8)
      = (Ok (STATUS_OKAY, Some ([b0; b1; b2; b3] ++ hex [0x00; 0x00; 0x02; 0x00])),
         fresh_world 8)
      ∧ be32 (int_of_byte b0) (int_of_byte b1) (int_of_byte b2) (int_of_byte b3) = 7.
Proof.
  destruct (read_capacity_reports_sector_count read_capacity (fresh_world 8))
    as (Hcount & Hrun); [reflexivity | split; [discriminate | reflexivity] |].
  split; [exact Hcount | exact (Hrun eq_refl)].
Defined.

(** ** Writing a sector *)

Lemma adjust_index_inside n i : 0 ≤ i ≤ n → adjust_index n i = i.
Proof.
  intros Hi. unfold adjust_index. destruct (Z.ltb_spec i 0); [lia|]. lia.
Qed.

Lemma mmap_setslice_inside (m value : bytes) (start stop : Z) :
  0 ≤ start → start ≤ stop → stop ≤ len m →
  DiskImage.mmap_setslice m start stop value
  = if len value =? stop - start
    then Ok (take (Z.to_nat start) m ++ value ++ drop (Z.to_nat stop) m)
    else Raise IndexError.
Proof.
  intros H0 H1 H2. unfold DiskImage.mmap_setslice.
  rewrite !adjust_index_inside by lia. rewrite Z.max_l by lia.
  replace (start + (stop - start)) with stop by lia. done.
Qed.

(** C8, counterexample. Writing 200 bytes to sector 0 of a two-sector
    image does not pad them: the slice assignment is refused with
    IndexError, the image is left as it was and nothing is flushed. *)
Lemma put_sector_data_short_data_raises :
  len (chunk 200) < 512
  ∧ DiskImage.put_sector_data (blank_disk 2) 0 (chunk 200)
    = (Raise IndexError, blank_disk 2).
Proof. split; reflexivity. Qed.

(** C8, as the code has it. For a sector inside the image,
    [put_sector_data] with at least 512 bytes of data writes the first 512
    of them at byte offset [address * 512], leaves the rest of the image
    alone and flushes before returning; with fewer than 512 bytes it raises
    IndexError and changes nothing: data is truncated, never padded. *)
Theorem put_sector_data_truncates_and_flushes
    (d : DiskImage.t) (address : Z) (data : bytes) :
  DiskImage.block_size d = 512 →
  0 ≤ address →
  (address + 1) * 512 ≤ len (DiskImage.image d) →
  let written :=
    take (Z.to_nat (address * 512)) (DiskImage.image d)
    ++ take 512 data
    ++ drop (Z.to_nat ((address + 1) * 512)) (DiskImage.image d) in
  (512 ≤ len data →
   DiskImage.put_sector_data d address data
   = (Ok tt,
      {| DiskImage.block_size := DiskImage.block_size d;
         DiskImage.size := DiskImage.size d;
         DiskImage.image := written;
         DiskImage.medium := written;
         DiskImage.flushes := S (DiskImage.flushes d) |})
   ∧ len written = len (DiskImage.image d)
   ∧ slice written (address * 512) ((address + 1) * 512) = take 512 data)
  ∧ (len data < 512 →
     DiskImage.put_sector_data d address data = (Raise IndexError, d)).
Proof.
  intros Hbs Haddr Hin written.
  assert (slice data 0 512 = take 512 data) as Hslice.
  { rewrite slice_nonneg by lia. by rewrite drop_0. }
  assert (DiskImage.put_sector_data d address data
          = if len (take 512 data) =? 512
            then (Ok tt, DiskImage.flush (DiskImage.set_image d written))
            else (Raise IndexError, d)) as Hput.
  { unfold DiskImage.put_sector_data. rewrite Hbs, Hslice.
    rewrite mmap_setslice_inside by lia.
    replace ((address + 1) * 512 - address * 512) with 512 by lia.
    by destruct (len (take 512 data) =? 512). }
  assert (len (take 512 data) = Z.min 512 (len data)) as Htake.
  { unfold len. rewrite length_take. lia. }
  split.
  - intros Hdata. rewrite Hput, Htake, Z.min_l by lia. simpl (512 =? 512).
    split; [done|].
    assert (length (take (Z.to_nat (address * 512)) (DiskImage.image d))
            = Z.to_nat (address * 512)) as Hpre.
    { rewrite length_take. unfold len in Hin. lia. }
    split.
    + unfold written. rewrite !len_app. unfold len in *.
      rewrite Hpre, length_drop. rewrite Htake. lia.
    + rewrite slice_nonneg by lia. unfold written.
      rewrite drop_app_length' by done.
      rewrite take_app_length'; [done|]. unfold len in *. lia.
  - intros Hdata. rewrite Hput, Htake, Z.min_r by lia.
    destruct (Z.eqb_spec (len data) 512); [lia | done].
Qed.

Lemma put_sector_data_truncates_and_flushes_witness :
  DiskImage.image (snd (DiskImage.put_sector_data (blank_disk 2) 1 (chunk 600)))
  = replicate 512 "000"%byte ++ chunk 512
  ∧ DiskImage.flushes (snd (DiskImage.put_sector_data (blank_disk 2) 1 (chunk 600))) = 1%nat
  ∧ DiskImage.put_sector_data (blank_disk 2) 0 (chunk 200)
    = (Raise IndexError, blank_disk 2).
Proof.
  destruct (put_sector_data_truncates_and_flushes (blank_disk 2) 1 (chunk 600))
    as (Hlong & _); [reflexivity | lia | vm_compute; discriminate |].
  destruct (put_sector_data_truncates_and_flushes (blank_disk 2) 0 (chunk 200))
    as (_ & Hshort); [reflexivity | lia | vm_compute; discriminate |].
  destruct Hlong as (-> & _); [vm_compute; discriminate|].
  split; [reflexivity | split; [reflexivity|]].
  apply Hshort. reflexivity.
Defined.

(** ** The write continuation *)

(** A delivery too short to parse leaves the world as it was. *)
Lemma short_delivery_in_progress (module_data : option bytes) (data : bytes) (w : world) :
  len data < 15 →
  handle_data_available module_data data w = (Raise IndexError, w).
Proof.
  intros Hlen. unfold handle_data_available.
  erewrite run_bind_raise; [done|].
  rewrite run_lift, CommandBlockWrapper_init_short; [done|].
  unfold len in Hlen. lia.
Qed.


(** [continue_write] never looks at the command it is given. *)
Lemma continue_write_ignores_its_argument module_data cbw1 cbw2 w :
  continue_write module_data cbw1 w = continue_write module_data cbw2 w.
Proof. reflexivity. Qed.

(** With no global [data] the continuation stops at the name lookup. *)
Lemma continue_write_NameError cbw w :
  continue_write None cbw w = (Raise NameError, w).
Proof. reflexivity. Qed.

(** So does every delivery that parses while a write is in progress. *)
Lemma delivery_during_write_NameError (data : bytes) (w : world) :
  15 ≤ len data →
  is_write_in_progress (self w) = true →
  handle_data_available None data w = (Raise NameError, w).
Proof.
  intros Hlen Hwrite.
  destruct (CommandBlockWrapper_init_ok data) as (cbw & Hparse & _).
  { unfold len in Hlen. lia. }
  unfold handle_data_available. step_lift Hparse.
  erewrite run_bind by (unfold gets; rewrite Hwrite; reflexivity).
  erewrite run_bind_raise by apply continue_write_NameError. done.
Qed.

(** C1, what the code does. Once a write is in progress no delivery is
    ever appended to the buffer: a delivery of fifteen bytes or more makes
    [continue_write] raise NameError on the name [data], a shorter one
    fails in the parser before that; either way the exception leaves the
    session exactly as it was, in progress with the same buffer, nothing is
    committed to the disk image and nothing is sent.  The accumulation,
    the commit and the status wrapper of the specification never take
    place. *)
Theorem write_session_never_advances (data : bytes) (w : world) :
  is_write_in_progress (self w) = true →
  handle_data_available None data w
  = (Raise (if len data <? 15 then IndexError else NameError), w).
Proof.
  intros Hwrite. destruct (Z.ltb_spec (len data) 15) as [Hshort|Hlong].
  - by apply short_delivery_in_progress.
  - by apply delivery_during_write_NameError.
Qed.

(** At the failing input: Write(10) for one block at address 5, then the
    chunks of 200 and 312 bytes. *)
Lemma write_session_never_advances_witness :
  handle_data_available None write_10_wire (fresh_world 8) = (Ok tt, accumulating_world)
  ∧ write_base_lba (self accumulating_world) = 5
  ∧ write_length (self accumulating_world) = 512
  ∧ write_data (self accumulating_world) = []
  ∧ handle_data_available None (chunk 200) accumulating_world
    = (Raise NameError, accumulating_world)
  ∧ handle_data_available None (chunk 312) accumulating_world
    = (Raise NameError, accumulating_world)
  ∧ commits (log accumulating_world) = []
  ∧ sent (log accumulating_world) = [].
Proof.
  split; [reflexivity|]. split; [reflexivity|]. split; [reflexivity|].
  split; [reflexivity|].
  split; [exact (write_session_never_advances (chunk 200) accumulating_world eq_refl)|].
  split; [exact (write_session_never_advances (chunk 312) accumulating_world eq_refl)|].
  split; reflexivity.
Defined.

(** ** The status wrapper of a command answered in one delivery *)

Lemma bind_ok_inv {A B} (m : M A) (k : A → M B) (w w'' : world) (b : B) :
  (m ≫= k) w = (Ok b, w'') → ∃ a w', m w = (Ok a, w') ∧ k a w' = (Ok b, w'').
Proof.
  unfold mbind, M_bind, bind. destruct (m w) as [[a|e] w']; [eauto | discriminate].
Qed.

(** Peel the binds of a run that ended well, down to its final [mret]. *)
Ltac peel H :=
  cbv beta zeta in H;
  repeat (apply bind_ok_inv in H as (? & ? & _ & H); cbv beta zeta in H).

Lemma call_handler_status h cbw w status response w' :
  call_handler h cbw w = (Ok (status, response), w') →
  status = STATUS_OKAY ∨ status = STATUS_FAILURE ∨ status = STATUS_INCOMPLETE.
Proof.
  intros H. destruct h; unfold call_handler in H;
    [ unfold handle_unknown_command in H
    | unfold handle_ignored_event in H
    | unfold handle_sense in H
    | unfold handle_inquiry in H
    | unfold handle_mode_sense in H
    | unfold handle_get_format_capacity in H
    | unfold handle_get_read_capacity in H
    | unfold handle_read in H
    | unfold handle_write in H ];
    peel H; injection H as <- _ _; auto.
Qed.

Lemma handle_scsi_command_status cbw w status response w' :
  handle_scsi_command cbw w = (Ok (status, response), w') →
  status = STATUS_OKAY ∨ status = STATUS_FAILURE ∨ status = STATUS_INCOMPLETE.
Proof.
  intros H. unfold handle_scsi_command in H.
  apply bind_ok_inv in H as (opcode & w0 & _ & H). cbv beta zeta in H.
  destruct (commands !! opcode) as [command|].
  - by apply call_handler_status in H.
  - by apply (call_handler_status Handle_unknown_command) in H.
Qed.

Lemma continue_write_status module_data cbw w status response w' :
  continue_write module_data cbw w = (Ok (status, response), w') →
  status = STATUS_OKAY ∨ status = STATUS_FAILURE ∨ status = STATUS_INCOMPLETE.
Proof.
  intros H. unfold continue_write in H. peel H.
  match type of H with
  | (if ?c then _ else _) _ = _ => destruct c
  end.
  - injection H as <- _ _. auto.
  - peel H. injection H as <- _ _. auto.
Qed.

(** Whatever completes in a delivery, a command or a write continuation,
    is answered with its response, if it has one, and then with the
    13-byte status wrapper: [USBS], a zero residue, the status byte, and
    for tag the tag of the wrapper parsed from that same delivery, its
    bytes 4 to 7. *)
Lemma status_wrapper_of_delivery
    (module_data : option bytes) (data : bytes) (cbw : CommandBlockWrapper)
    (w w1 : world) (status : Z) (response : option bytes) :
  CommandBlockWrapper_init data = Ok cbw →
  (if is_write_in_progress (self w)
   then continue_write module_data cbw
   else handle_scsi_command cbw) w = (Ok (status, response), w1) →
  status ≠ STATUS_INCOMPLETE →
  ∃ sb : byte,
    int_of_byte sb = status
    ∧ tag cbw = take 4 (drop 4 data)
    ∧ handle_data_available module_data data w
      = (Ok tt,
         {| self := self w1;
            log := log w1
                   ++ (if truthy response then [Send (default [] response) true] else [])
                   ++ [Send (csw_wire (tag cbw) sb) false] |})
    ∧ len (csw_wire (tag cbw) sb) = 13.
Proof.
  intros Hparse Hrun Hstatus.
  destruct (Z_lt_le_dec (len data) 15) as [Hshort|Hlong].
  { rewrite CommandBlockWrapper_init_short in Hparse; [done|]. unfold len in Hshort. lia. }
  destruct (CommandBlockWrapper_init_ok data) as (cbw' & Hparse' & Htag & _ & Htaglen).
  { unfold len in Hlong. lia. }
  rewrite Hparse in Hparse'. injection Hparse' as <-.
  destruct (tag cbw) as [|t0 [|t1 [|t2 [|t3 [|]]]]] eqn:Etag; try discriminate.
  assert (∃ sb, byte_of_int status = Some sb ∧ int_of_byte sb = status) as (sb & Esb & Vsb).
  { apply byte_of_int_in_range.
    assert (status = STATUS_OKAY ∨ status = STATUS_FAILURE ∨ status = STATUS_INCOMPLETE)
      as [-> | [-> | ->]]; [|done..].
    destruct (is_write_in_progress (self w)).
    - by apply continue_write_status in Hrun.
    - by apply handle_scsi_command_status in Hrun. }
  exists sb. split; [done|]. split; [done|]. split; [|done].
  assert (bytes_of_ints
            [ord "U"; ord "S"; ord "B"; ord "S";
             int_of_byte t0; int_of_byte t1; int_of_byte t2; int_of_byte t3;
             0x00; 0x00; 0x00; 0x00; status]
          = Ok (csw_wire [t0; t1; t2; t3] sb)) as Hcsw.
  { cbn [bytes_of_ints]. rewrite !byte_of_int_of_byte, Esb. reflexivity. }
  unfold handle_data_available. step_lift Hparse.
  erewrite run_bind by (unfold gets; reflexivity).
  erewrite run_bind by apply Hrun.
  cbv beta iota.
  destruct (Z.eqb_spec status STATUS_INCOMPLETE) as [Heq|Hne]; [done|].
  rewrite Etag.
  assert (byte_at [t0; t1; t2; t3] 0 = Ok (int_of_byte t0)) as Ht0 by reflexivity.
  assert (byte_at [t0; t1; t2; t3] 1 = Ok (int_of_byte t1)) as Ht1 by reflexivity.
  assert (byte_at [t0; t1; t2; t3] 2 = Ok (int_of_byte t2)) as Ht2 by reflexivity.
  assert (byte_at [t0; t1; t2; t3] 3 = Ok (int_of_byte t3)) as Ht3 by reflexivity.
  destruct (truthy response).
  - erewrite run_bind by reflexivity.
    step_lift Ht0. step_lift Ht1. step_lift Ht2. step_lift Ht3.
    step_lift Hcsw. unfold ep_to_host_send, emit. simpl.
    by rewrite <- app_assoc.
  - erewrite run_bind by reflexivity.
    step_lift Ht0. step_lift Ht1. step_lift Ht2. step_lift Ht3.
    step_lift Hcsw. unfold ep_to_host_send, emit. simpl. done.
Qed.



(** * Further properties of the code *)

(** ** The parsed fields *)

Lemma le32_range b0 b1 b2 b3 :
  0 ≤ b0 < 256 → 0 ≤ b1 < 256 → 0 ≤ b2 < 256 → 0 ≤ b3 < 256 →
  0 ≤ le32 b0 b1 b2 b3 < 2 ^ 32.
Proof. unfold le32. lia. Qed.

Lemma land_ones_range x k : 0 ≤ k → 0 ≤ Z.land x (Z.ones k) ≤ 2 ^ k - 1.
Proof.
  intros Hk. rewrite Z.land_ones by done.
  pose proof (Z.mod_pos_bound x (2 ^ k)). lia.
Qed.

(** Every delivery of fifteen bytes or more parses, into fields within the
    ranges of their masks and shifts; the command block is everything from
    byte 15 on, however long, whatever the length byte says. *)
Theorem parsed_fields_in_range (data : bytes) :
  15 ≤ len data →
  ∃ cbw, CommandBlockWrapper_init data = Ok cbw
    ∧ signature cbw = take 4 data
    ∧ tag cbw = take 4 (drop 4 data)
    ∧ cb cbw = drop 15 data
    ∧ len (cb cbw) = len data - 15
    ∧ 0 ≤ data_transfer_length cbw < 2 ^ 32
    ∧ 0 ≤ flags cbw < 256
    ∧ 0 ≤ lun cbw ≤ 0x0f
    ∧ 0 ≤ cb_length cbw ≤ 0x1f.
Proof.
  intros Hlen.
  do 15 (destruct data as [|? data]; [unfold len in Hlen; simpl in Hlen; lia|]).
  rewrite CommandBlockWrapper_init_long. eexists. split; [done|]. simpl.
  split; [done|]. split; [done|]. split; [done|].
  split; [unfold len; simpl; lia|].
  split; [apply le32_range; apply int_of_byte_range|].
  split; [apply int_of_byte_range|].
  split; [apply (land_ones_range _ 4); lia | apply (land_ones_range _ 5); lia].
Qed.

Lemma parsed_fields_in_range_witness :
  ∃ cbw, CommandBlockWrapper_init write_10_wire = Ok cbw
    ∧ data_transfer_length cbw = 512 ∧ len (cb cbw) = 16.
Proof.
  destruct (parsed_fields_in_range write_10_wire) as (cbw & Hparse & _ & _ & Hcb & Hlen & _);
    [vm_compute; discriminate|].
  exists cbw. split; [exact Hparse|].
  rewrite write_10_wire_parses in Hparse. injection Hparse as <-.
  split; reflexivity.
Defined.

(** ** What the handlers leave alone *)

Section Keeping.

Variable R : world → world → Prop.
Hypothesis R_refl : ∀ w, R w w.
Hypothesis R_trans : ∀ w1 w2 w3, R w1 w2 → R w2 w3 → R w1 w3.

Lemma keeps_ret {A} (a : A) : keeps R (mret a).
Proof. intros w. apply R_refl. Qed.

Lemma keeps_raise {A} (e : exn) : keeps R (raise e : M A).
Proof. intros w. apply R_refl. Qed.

Lemma keeps_lift {A} (r : result A) : keeps R (lift r).
Proof. intros w. apply R_refl. Qed.

Lemma keeps_gets {A} (f : USBMassStorageInterface → A) : keeps R (gets f).
Proof. intros w. apply R_refl. Qed.

Lemma keeps_bind {A B} (m : M A) (k : A → M B) :
  keeps R m → (∀ a, keeps R (k a)) → keeps R (m ≫= k).
Proof.
  intros Hm Hk w. unfold mbind, M_bind, bind.
  pose proof (Hm w) as Hw. destruct (m w) as [[a|e] w']; simpl in Hw.
  - apply R_trans with w'; [done | apply Hk].
  - done.
Qed.

Lemma keeps_for_each {A} (xs : list A) (body : A → M unit) :
  (∀ x, keeps R (body x)) → keeps R (for_each xs body).
Proof.
  intros Hbody. induction xs as [|x xs IH]; simpl.
  - apply keeps_ret.
  - apply keeps_bind; [apply Hbody | intros _; apply IH].
Qed.

(** Sending and reading sectors are kept by [R] when logging is. *)
Hypothesis R_emit_get : ∀ a, keeps R (emit (GetSector a)).
Hypothesis R_emit_send : ∀ d b, keeps R (emit (Send d b)).

Lemma keeps_ep_to_host_send data blocking : keeps R (ep_to_host_send data blocking).
Proof. apply R_emit_send. Qed.

Lemma keeps_disk_get_sector_count : keeps R disk_get_sector_count.
Proof. apply keeps_bind; [apply keeps_gets | intros; apply keeps_lift]. Qed.

Lemma keeps_disk_get_sector_data address : keeps R (disk_get_sector_data address).
Proof.
  apply keeps_bind; [apply R_emit_get | intros _].
  apply keeps_bind; [apply keeps_gets | intros; apply keeps_ret].
Qed.

(** Every handler but [handle_write] only reads and sends. *)
Lemma keeps_call_handler h cbw :
  h ≠ Handle_write → keeps R (call_handler h cbw).
Proof.
  intros Hh. destruct h; [..|done]; simpl.
  - unfold handle_unknown_command.
    apply keeps_bind.
    + destruct (0 <? data_transfer_length cbw); [|apply keeps_ret].
      apply keeps_bind; [apply keeps_lift | intros; apply keeps_ret].
    + intros; apply keeps_ret.
  - apply keeps_ret.
  - apply keeps_ret.
  - unfold handle_inquiry.
    apply keeps_bind; [apply keeps_lift | intros].
    apply keeps_bind; [apply keeps_lift | intros].
    apply keeps_bind; [apply keeps_lift | intros]. apply keeps_ret.
  - unfold handle_mode_sense.
    apply keeps_bind; [apply keeps_lift | intros]. apply keeps_ret.
  - unfold handle_get_format_capacity.
    apply keeps_bind; [apply keeps_lift | intros]. apply keeps_ret.
  - unfold handle_get_read_capacity.
    apply keeps_bind; [apply keeps_disk_get_sector_count | intros].
    apply keeps_bind; [apply keeps_lift | intros]. apply keeps_ret.
  - unfold handle_read.
    do 6 (apply keeps_bind; [apply keeps_lift | intros]).
    apply keeps_bind; [|intros; apply keeps_ret].
    apply keeps_for_each. intros block_num.
    apply keeps_bind; [apply keeps_disk_get_sector_data | intros].
    apply keeps_ep_to_host_send.
Qed.

(** The tail of the entry point: response, then status wrapper. *)
Lemma keeps_respond (cbw : CommandBlockWrapper) (status : Z) (response : option bytes) :
  keeps R
    (if status =? STATUS_INCOMPLETE then mret tt
     else
       (if truthy response
        then ep_to_host_send (default [] response) true
        else mret tt);;
       t0 ← lift (byte_at (tag cbw) 0);
       t1 ← lift (byte_at (tag cbw) 1);
       t2 ← lift (byte_at (tag cbw) 2);
       t3 ← lift (byte_at (tag cbw) 3);
       csw ← lift (bytes_of_ints
         [ord "U"; ord "S"; ord "B"; ord "S";
          t0; t1; t2; t3;
          0x00; 0x00; 0x00; 0x00;
          status]);
       ep_to_host_send csw false).
Proof.
  destruct (status =? STATUS_INCOMPLETE); [apply keeps_ret|].
  apply keeps_bind.
  - destruct (truthy response); [apply keeps_ep_to_host_send | apply keeps_ret].
  - intros _. do 5 (apply keeps_bind; [apply keeps_lift | intros]).
    apply keeps_ep_to_host_send.
Qed.

End Keeping.

Lemma same_disk_refl w : same_disk w w.
Proof. by split. Qed.

Lemma same_disk_trans w1 w2 w3 : same_disk w1 w2 → same_disk w2 w3 → same_disk w1 w3.
Proof. intros [H1 H2] [H3 H4]. split; congruence. Qed.

Lemma commits_app evs1 evs2 : commits (evs1 ++ evs2) = commits evs1 ++ commits evs2.
Proof. unfold commits. apply flat_map_app. Qed.

Lemma same_disk_emit e :
  commits [e] = [] → keeps same_disk (emit e).
Proof.
  intros He w. split; [done|]. simpl. by rewrite commits_app, He, app_nil_r.
Qed.

Lemma same_disk_modify f :
  (∀ s, disk_image (f s) = disk_image s) → keeps same_disk (modify f).
Proof. intros Hf w. split; [apply Hf | done]. Qed.

Lemma same_self_refl w : same_self w w.
Proof. done. Qed.

Lemma same_self_trans w1 w2 w3 : same_self w1 w2 → same_self w2 w3 → same_self w1 w3.
Proof. unfold same_self. congruence. Qed.

Lemma same_self_emit e : keeps same_self (emit e).
Proof. by intros w. Qed.

(** Which opcode a registered handler answers to. *)
Lemma commands_lookup_Some (opcode : Z) (command : descriptor) :
  commands !! opcode = Some command →
  d_number command = opcode
  ∧ d_handler command ≠ Handle_unknown_command
  ∧ (d_handler command = Handle_write → opcode = 0x2a)
  ∧ (d_handler command = Handle_read → opcode = 0x28)
  ∧ (d_handler command = Handle_inquiry → opcode = 0x12)
  ∧ (d_handler command = Handle_mode_sense → opcode = 0x1a ∨ opcode = 0x5a).
Proof.
  unfold commands, _register_scsi_command. intros H.
  repeat (apply lookup_insert_Some in H as [[<- <-]|[_ H]];
          [simpl; repeat split; (done || auto)|]).
  by rewrite lookup_empty in H.
Qed.

(** One step of a sequence under [same_disk]. *)
Ltac disk_step :=
  apply keeps_bind; [apply same_disk_trans | | intros].

Lemma keeps_same_disk_handle_write cbw : keeps same_disk (handle_write cbw).
Proof.
  unfold handle_write.
  do 6 (disk_step; [apply keeps_lift, same_disk_refl|]).
  disk_step; [by apply same_disk_modify|].
  disk_step; [by apply same_disk_modify|].
  disk_step; [apply keeps_gets, same_disk_refl|].
  disk_step; [by apply same_disk_modify|].
  disk_step; [by apply same_disk_modify|].
  apply keeps_ret, same_disk_refl.
Qed.

Lemma keeps_same_disk_handle_scsi_command cbw : keeps same_disk (handle_scsi_command cbw).
Proof.
  assert (∀ h, keeps same_disk (call_handler h cbw)) as Hcall.
  { intros h.
    assert (h = Handle_write ∨ h ≠ Handle_write) as [->|Hh]
      by (destruct h; auto || (right; discriminate)).
    - apply keeps_same_disk_handle_write.
    - apply (keeps_call_handler same_disk same_disk_refl same_disk_trans);
        [intros; by apply same_disk_emit | intros; by apply same_disk_emit | done]. }
  unfold handle_scsi_command.
  disk_step; [apply keeps_lift, same_disk_refl|].
  cbv zeta. destruct (commands !! _) as [command|].
  - apply Hcall.
  - apply (Hcall Handle_unknown_command).
Qed.

(** No SCSI command writes to the disk image: whatever the command and
    whether its handler returns or raises, the image, its flushed copy and
    the flush count are as before and no commit was made. *)
Theorem commands_never_write_the_disk (cbw : CommandBlockWrapper) (w : world) :
  disk_image (self (snd (handle_scsi_command cbw w))) = disk_image (self w)
  ∧ commits (log (snd (handle_scsi_command cbw w))) = commits (log w).
Proof. apply keeps_same_disk_handle_scsi_command. Qed.

(** The module as it is written never writes to the disk image: after any
    delivery in any state, command or write data, the image is as before
    and [put_sector_data] has not been called. *)
Theorem deliveries_never_write_the_disk (data : bytes) (w : world) :
  disk_image (self (snd (handle_data_available None data w))) = disk_image (self w)
  ∧ commits (log (snd (handle_data_available None data w))) = commits (log w).
Proof.
  revert w. change (keeps same_disk (handle_data_available None data)).
  unfold handle_data_available.
  disk_step; [apply keeps_lift, same_disk_refl|].
  disk_step; [apply keeps_gets, same_disk_refl|].
  disk_step.
  - match goal with |- keeps _ (if ?b then _ else _) => destruct b end.
    + intros w. rewrite continue_write_NameError. apply same_disk_refl.
    + apply keeps_same_disk_handle_scsi_command.
  - match goal with p : (Z * option bytes)%type |- _ => destruct p end.
    apply (keeps_respond same_disk same_disk_refl same_disk_trans).
    intros; by apply same_disk_emit.
Qed.

Lemma keeps_same_self_handle_scsi_command cbw :
  byte_at (cb cbw) 0 ≠ Ok 0x2a → keeps same_self (handle_scsi_command cbw).
Proof.
  intros Hop w.
  destruct (byte_at (cb cbw) 0) as [opcode|e] eqn:Hbyte; unfold handle_scsi_command.
  - step_lift Hbyte. cbv zeta.
    destruct (commands !! opcode) as [command|] eqn:Hcmd.
    + apply (keeps_call_handler same_self same_self_refl same_self_trans);
        [intros; apply same_self_emit | intros; apply same_self_emit |].
      intros Hh. apply commands_lookup_Some in Hcmd as (_ & _ & Hw & _).
      apply Hop. by rewrite (Hw Hh).
    + apply (keeps_call_handler same_self same_self_refl same_self_trans
               (λ _, same_self_emit _) (λ _ _, same_self_emit _)
               Handle_unknown_command); done.
  - erewrite run_bind_raise by (rewrite run_lift, Hbyte; reflexivity). done.
Qed.

(** Only Write(10) changes the interface object: a delivery to an idle
    interface that does not parse to a command with opcode 0x2A, whatever
    else it is and whether it is answered or raises, leaves every field of
    the interface, the disk image included, as it was. *)
Theorem only_write_10_changes_the_interface
    (module_data : option bytes) (data : bytes) (w : world) :
  is_write_in_progress (self w) = false →
  (∀ cbw, CommandBlockWrapper_init data = Ok cbw → byte_at (cb cbw) 0 ≠ Ok 0x2a) →
  self (snd (handle_data_available module_data data w)) = self w.
Proof.
  intros Hidle Hop.
  destruct (CommandBlockWrapper_init data) as [cbw|e] eqn:Hparse;
    unfold handle_data_available.
  - step_lift Hparse.
    erewrite run_bind by (unfold gets; rewrite Hidle; reflexivity).
    cbv beta iota.
    apply (keeps_bind same_self same_self_trans).
    + by apply keeps_same_self_handle_scsi_command, Hop.
    + intros [status response].
      apply (keeps_respond same_self same_self_refl same_self_trans).
      intros; apply same_self_emit.
  - erewrite run_bind_raise by (rewrite run_lift, Hparse; reflexivity). done.
Qed.

Lemma only_write_10_changes_the_interface_witness :
  self (snd (handle_data_available None inquiry_40_wire (fresh_world 8)))
  = interface_init (blank_disk 8)
  ∧ log (snd (handle_data_available None inquiry_40_wire (fresh_world 8))) ≠ [].
Proof.
  split; [|vm_compute; discriminate].
  apply (only_write_10_changes_the_interface None inquiry_40_wire (fresh_world 8));
    [reflexivity|].
  intros cbw Hparse. vm_compute in Hparse. injection Hparse as <-.
  vm_compute. discriminate.
Defined.

(** ** Truncated commands *)

(** A wrapper with no command bytes parses, but has no opcode to dispatch
    on: a delivery of exactly fifteen bytes to an idle interface raises
    IndexError and leaves the world as it was. *)
Theorem bare_wrapper_raises_IndexError
    (module_data : option bytes) (data : bytes) (w : world) :
  len data = 15 →
  is_write_in_progress (self w) = false →
  is_ok (CommandBlockWrapper_init data)
  ∧ handle_data_available module_data data w = (Raise IndexError, w).
Proof.
  intros Hlen Hidle.
  destruct (CommandBlockWrapper_init_ok data) as (cbw & Hparse & _ & Hcb & _).
  { unfold len in Hlen. lia. }
  split; [by exists cbw|].
  assert (cb cbw = []) as Hempty.
  { rewrite Hcb. apply drop_ge. unfold len in Hlen. lia. }
  unfold handle_data_available. step_lift Hparse.
  erewrite run_bind by (unfold gets; rewrite Hidle; reflexivity).
  erewrite run_bind_raise; [done|].
  unfold handle_scsi_command.
  erewrite run_bind_raise; [done|]. by rewrite run_lift, Hempty.
Qed.

Lemma bare_wrapper_raises_IndexError_witness :
  handle_data_available None bare_wrapper_wire (fresh_world 8)
  = (Raise IndexError, fresh_world 8).
Proof.
  apply (bare_wrapper_raises_IndexError None bare_wrapper_wire (fresh_world 8));
    reflexivity.
Defined.

(** Read(10) and Write(10) read command bytes up to index 8 before they do
    anything else: with a command block shorter than nine bytes they raise
    IndexError with the world as it was, no sector read, no write session
    opened. *)
Theorem truncated_read_write_raise_IndexError
    (cbw : CommandBlockWrapper) (opcode : Z) (w : world) :
  byte_at (cb cbw) 0 = Ok opcode →
  opcode = 0x28 ∨ opcode = 0x2a →
  len (cb cbw) < 9 →
  handle_scsi_command cbw w = (Raise IndexError, w).
Proof.
  intros Hop Hcode Hlen.
  destruct cbw as [sg tg dtl fl ln cbl c]. simpl in *.
  do 9 (destruct c as [|? c];
        [destruct Hcode as [-> | ->];
         unfold handle_scsi_command;
         erewrite (run_bind _ _ w w)
           by (rewrite run_lift; exact (f_equal (λ r, (r, w)) Hop));
         reflexivity|]).
  unfold len in Hlen. simpl in Hlen. lia.
Qed.

Lemma truncated_read_write_raise_IndexError_witness :
  handle_scsi_command read_10_truncated (fresh_world 8) = (Raise IndexError, fresh_world 8)
  ∧ handle_scsi_command write_10_truncated (fresh_world 8) = (Raise IndexError, fresh_world 8).
Proof.
  split.
  - apply (truncated_read_write_raise_IndexError read_10_truncated 0x28 (fresh_world 8));
      [reflexivity | by left | reflexivity].
  - apply (truncated_read_write_raise_IndexError write_10_truncated 0x2a (fresh_world 8));
      [reflexivity | by right | reflexivity].
Defined.

(** Inquiry unpacks six command bytes: with a shorter command block it
    raises the error of [struct.unpack] and sends nothing. *)
Theorem truncated_inquiry_raises_StructError (cbw : CommandBlockWrapper) (w : world) :
  byte_at (cb cbw) 0 = Ok 0x12 →
  len (cb cbw) < 6 →
  handle_scsi_command cbw w = (Raise StructError, w).
Proof.
  intros Hop Hlen.
  destruct cbw as [sg tg dtl fl ln cbl c]. simpl in *.
  do 6 (destruct c as [|? c];
        [unfold handle_scsi_command;
         erewrite (run_bind _ _ w w)
           by (rewrite run_lift; exact (f_equal (λ r, (r, w)) Hop));
         reflexivity|]).
  unfold len in Hlen. simpl in Hlen. lia.
Qed.

Lemma truncated_inquiry_raises_StructError_witness :
  handle_scsi_command inquiry_truncated (fresh_world 8) = (Raise StructError, fresh_world 8).
Proof.
  apply (truncated_inquiry_raises_StructError inquiry_truncated (fresh_world 8));
    reflexivity.
Defined.

(** ** Mode Sense *)

(** Mode Sense, (6) or (10), looks only at the low six bits of command
    byte 2: for page 0x3F it answers the eight-byte header ending in 0x1C,
    for any other page the header ending in 0x00, always with status OKAY
    and the world as it was; a command block of fewer than three bytes
    raises IndexError. *)
Theorem mode_sense_answers_by_page (cbw : CommandBlockWrapper) (opcode : Z) (w : world) :
  byte_at (cb cbw) 0 = Ok opcode →
  opcode = 0x1a ∨ opcode = 0x5a →
  (∀ c2, byte_at (cb cbw) 2 = Ok c2 →
     handle_scsi_command cbw w
     = (Ok (STATUS_OKAY,
            Some (mode_sense_header (if Z.land c2 0x3f =? 0x3f then 0x1c else 0x00))), w))
  ∧ (len (cb cbw) < 3 → handle_scsi_command cbw w = (Raise IndexError, w)).
Proof.
  intros Hop Hcode.
  assert (handle_scsi_command cbw w = handle_mode_sense cbw w) as ->.
  { unfold handle_scsi_command. step_lift Hop. cbv zeta.
    by destruct Hcode as [-> | ->]. }
  unfold handle_mode_sense. split.
  - intros c2 H2. step_lift H2.
    by destruct (Z.land c2 0x3f =? 0x3f).
  - intros Hlen. erewrite run_bind_raise; [done|].
    rewrite run_lift, byte_at_outside; [done | lia].
Qed.

Lemma mode_sense_answers_by_page_witness :
  handle_scsi_command mode_sense_all (fresh_world 8)
  = (Ok (STATUS_OKAY, Some (mode_sense_header 0x1c)), fresh_world 8)
  ∧ handle_scsi_command mode_sense_page_8 (fresh_world 8)
    = (Ok (STATUS_OKAY, Some (mode_sense_header 0x00)), fresh_world 8)
  ∧ handle_scsi_command mode_sense_truncated (fresh_world 8)
    = (Raise IndexError, fresh_world 8).
Proof.
  split; [|split].
  - exact (proj1 (mode_sense_answers_by_page mode_sense_all 0x1a (fresh_world 8)
                    eq_refl (or_introl eq_refl)) 0x3f eq_refl).
  - exact (proj1 (mode_sense_answers_by_page mode_sense_page_8 0x5a (fresh_world 8)
                    eq_refl (or_intror eq_refl)) 0x08 eq_refl).
  - exact (proj2 (mode_sense_answers_by_page mode_sense_truncated 0x1a (fresh_world 8)
                    eq_refl (or_introl eq_refl)) eq_refl).
Defined.

(** ** Whole transactions *)

Lemma int_of_byte_inj b1 b2 : int_of_byte b1 = int_of_byte b2 → b1 = b2.
Proof.
  intros H. pose proof (byte_of_int_of_byte b1) as H1.
  rewrite H, byte_of_int_of_byte in H1. congruence.
Qed.

(** What Read(10) does, as a run of the dispatcher. *)
Lemma handle_scsi_command_read (cbw : CommandBlockWrapper) (w : world)
    (c2 c3 c4 c5 c7 c8 : Z) :
  byte_at (cb cbw) 0 = Ok 0x28 →
  byte_at (cb cbw) 2 = Ok c2 → byte_at (cb cbw) 3 = Ok c3 →
  byte_at (cb cbw) 4 = Ok c4 → byte_at (cb cbw) 5 = Ok c5 →
  byte_at (cb cbw) 7 = Ok c7 → byte_at (cb cbw) 8 = Ok c8 →
  handle_scsi_command cbw w
  = (Ok (STATUS_OKAY, None),
     {| self := self w;
        log := log w ++ sector_stream (disk_image (self w))
                          (seqZ (be32 c2 c3 c4 c5) (be16 c7 c8)) |}).
Proof.
  intros Hop H2 H3 H4 H5 H7 H8.
  pose proof (byte_at_range _ _ _ H2). pose proof (byte_at_range _ _ _ H3).
  pose proof (byte_at_range _ _ _ H4). pose proof (byte_at_range _ _ _ H5).
  pose proof (byte_at_range _ _ _ H7). pose proof (byte_at_range _ _ _ H8).
  unfold handle_scsi_command. step_lift Hop. cbv zeta.
  change (commands !! 40) with
    (Some {| d_number := 0x28; d_name := "Read"; d_handler := Handle_read |}).
  cbv iota. unfold call_handler, d_handler, handle_read.
  step_lift H2. step_lift H3. step_lift H4. step_lift H5. step_lift H7. step_lift H8.
  rewrite be32_of_shifts, be16_of_shifts by done.
  erewrite run_bind by apply for_each_read_sectors.
  unfold range. rewrite fmap_add_seqZ, Z.add_0_r. done.
Qed.

(** A whole Read(10) transaction: to an idle interface the delivery of the
    command leaves, on the inbound endpoint, the K sectors from address B
    in order, each fetched and sent in turn, and then the status wrapper
    with the tag of the command and status OKAY; the interface is as it
    was.  With K = 0 the wrapper is all that is sent. *)
Theorem read_10_transaction
    (module_data : option bytes) (data : bytes) (cbw : CommandBlockWrapper)
    (w : world) (c2 c3 c4 c5 c7 c8 : Z) :
  CommandBlockWrapper_init data = Ok cbw →
  is_write_in_progress (self w) = false →
  byte_at (cb cbw) 0 = Ok 0x28 →
  byte_at (cb cbw) 2 = Ok c2 → byte_at (cb cbw) 3 = Ok c3 →
  byte_at (cb cbw) 4 = Ok c4 → byte_at (cb cbw) 5 = Ok c5 →
  byte_at (cb cbw) 7 = Ok c7 → byte_at (cb cbw) 8 = Ok c8 →
  handle_data_available module_data data w
  = (Ok tt,
     {| self := self w;
        log := log w
               ++ sector_stream (disk_image (self w)) (seqZ (be32 c2 c3 c4 c5) (be16 c7 c8))
               ++ [Send (csw_wire (tag cbw) "000"%byte) false] |}).
Proof.
  intros Hparse Hidle Hop H2 H3 H4 H5 H7 H8.
  pose proof (handle_scsi_command_read cbw w c2 c3 c4 c5 c7 c8 Hop H2 H3 H4 H5 H7 H8)
    as Hrun.
  assert ((if is_write_in_progress (self w)
           then continue_write module_data cbw
           else handle_scsi_command cbw) w = handle_scsi_command cbw w) as Hidle'
    by (by rewrite Hidle).
  rewrite <- Hidle' in Hrun.
  destruct (status_wrapper_of_delivery module_data data cbw w _ _ _ Hparse Hrun)
    as (sb & Hsb & _ & Hsent & _); [done|].
  apply (int_of_byte_inj sb "000"%byte) in Hsb as ->.
  rewrite Hsent. simpl. by rewrite <- app_assoc.
Qed.

Lemma read_10_transaction_witness :
  handle_data_available None read_10_lba_10_wire (fresh_world 16)
  = (Ok tt,
     {| self := self (fresh_world 16);
        log := sector_stream (blank_disk 16) [10; 11; 12]
               ++ [Send (csw_wire (hex [1; 2; 3; 4]) "000"%byte) false] |}).
Proof.
  apply (read_10_transaction None read_10_lba_10_wire read_10_lba_10 (fresh_world 16)
           0 0 0 10 0 3); reflexivity.
Defined.

(** The answer to a command that completes with status byte [sb]. *)
Lemma command_transaction
    (module_data : option bytes) (data : bytes) (cbw : CommandBlockWrapper)
    (w w1 : world) (sb : byte) (response : option bytes) :
  CommandBlockWrapper_init data = Ok cbw →
  is_write_in_progress (self w) = false →
  handle_scsi_command cbw w = (Ok (int_of_byte sb, response), w1) →
  handle_data_available module_data data w
  = (Ok tt,
     {| self := self w1;
        log := log w1
               ++ (if truthy response then [Send (default [] response) true] else [])
               ++ [Send (csw_wire (tag cbw) sb) false] |}).
Proof.
  intros Hparse Hidle Hrun.
  assert ((if is_write_in_progress (self w)
           then continue_write module_data cbw
           else handle_scsi_command cbw) w = handle_scsi_command cbw w) as Hidle'
    by (by rewrite Hidle).
  rewrite <- Hidle' in Hrun.
  destruct (status_wrapper_of_delivery module_data data cbw w _ _ _ Hparse Hrun)
    as (sb' & Hsb & _ & Hsent & _).
  { pose proof (int_of_byte_range sb). unfold STATUS_INCOMPLETE. lia. }
  by apply int_of_byte_inj in Hsb as ->.
Qed.

(** A whole transaction for an opcode the table does not have: the host
    is sent as many zero bytes as it asked for, if any, and then the status
    wrapper with the tag of the command and status 0x02; the interface is
    as it was. *)
Theorem unknown_opcode_transaction
    (module_data : option bytes) (data : bytes) (cbw : CommandBlockWrapper)
    (opcode : Z) (w : world) :
  CommandBlockWrapper_init data = Ok cbw →
  is_write_in_progress (self w) = false →
  byte_at (cb cbw) 0 = Ok opcode →
  commands !! opcode = None →
  handle_data_available module_data data w
  = (Ok tt,
     {| self := self w;
        log := log w
               ++ (if 0 <? data_transfer_length cbw
                   then [Send (replicate (Z.to_nat (data_transfer_length cbw)) "000"%byte)
                              true]
                   else [])
               ++ [Send (csw_wire (tag cbw) "002"%byte) false] |}).
Proof.
  intros Hparse Hidle Hop Hcmd.
  assert (handle_scsi_command cbw w
          = (Ok (int_of_byte "002"%byte,
                 if 0 <? data_transfer_length cbw
                 then Some (replicate (Z.to_nat (data_transfer_length cbw)) "000"%byte)
                 else None), w)) as Hrun.
  { unfold handle_scsi_command. step_lift Hop. cbv zeta. rewrite Hcmd.
    unfold handle_unknown_command.
    destruct (0 <? data_transfer_length cbw); [|done].
    erewrite run_bind; [done|].
    erewrite run_bind by (rewrite run_lift, bytes_of_ints_zeros; reflexivity). done. }
  rewrite (command_transaction module_data data cbw w w "002"%byte _ Hparse Hidle Hrun).
  destruct (Z.ltb_spec 0 (data_transfer_length cbw)) as [Hpos|Hzero]; [|done].
  destruct (Z.to_nat (data_transfer_length cbw)) as [|n] eqn:Hn; [lia|]. done.
Qed.

Lemma unknown_opcode_transaction_witness :
  handle_data_available None unknown_3_wire (fresh_world 8)
  = (Ok tt,
     {| self := self (fresh_world 8);
        log := [Send (replicate 3 "000"%byte) true;
                Send (csw_wire (hex [1; 2; 3; 4]) "002"%byte) false] |}).
Proof.
  apply (unknown_opcode_transaction None unknown_3_wire unknown_3 0x77 (fresh_world 8));
    reflexivity.
Defined.

(** Test Unit Ready, Prevent/Allow Removal and Synchronize Cache are
    acknowledged and nothing more: the whole answer is one status wrapper
    with the tag of the command and status OKAY, and the interface is as it
    was. *)
Theorem ignored_command_transaction
    (module_data : option bytes) (data : bytes) (cbw : CommandBlockWrapper)
    (opcode : Z) (w : world) :
  CommandBlockWrapper_init data = Ok cbw →
  is_write_in_progress (self w) = false →
  byte_at (cb cbw) 0 = Ok opcode →
  opcode = 0x00 ∨ opcode = 0x1e ∨ opcode = 0x36 →
  handle_data_available module_data data w
  = (Ok tt,
     {| self := self w;
        log := log w ++ [Send (csw_wire (tag cbw) "000"%byte) false] |}).
Proof.
  intros Hparse Hidle Hop Hcode.
  assert (handle_scsi_command cbw w = (Ok (int_of_byte "000"%byte, None), w)) as Hrun.
  { unfold handle_scsi_command. step_lift Hop. cbv zeta.
    by destruct Hcode as [-> | [-> | ->]]. }
  by rewrite (command_transaction module_data data cbw w w "000"%byte _ Hparse Hidle Hrun).
Qed.

Lemma ignored_command_transaction_witness :
  handle_data_available None test_unit_ready_wire (fresh_world 8)
  = (Ok tt,
     {| self := self (fresh_world 8);
        log := [Send (csw_wire (hex [9; 8; 7; 6]) "000"%byte) false] |}).
Proof.
  apply (ignored_command_transaction None test_unit_ready_wire
           (cbw_of [9; 8; 7; 6] 0 0 [0x00; 0; 0; 0; 0; 0; 0; 0; 0; 0; 0; 0; 0; 0; 0; 0])
           0x00 (fresh_world 8)); try reflexivity.
  by left.
Defined.

(** ** The disk image *)

Lemma slice_ext {A} (l l' : list A) (a b : Z) :
  0 ≤ a → 0 ≤ b →
  (∀ i, (Z.to_nat a ≤ i < Z.to_nat b)%nat → l !! i = l' !! i) →
  slice l a b = slice l' a b.
Proof.
  intros Ha Hb Hagree. rewrite !slice_nonneg by done. apply list_eq. intros i.
  destruct (Nat.lt_ge_cases i (Z.to_nat b - Z.to_nat a)) as [Hlt|Hge].
  - rewrite !lookup_take_lt, !lookup_drop by done. apply Hagree. lia.
  - by rewrite !lookup_take_ge by done.
Qed.

Lemma get_sector_data_len (d : DiskImage.t) (address : Z) :
  0 < DiskImage.block_size d →
  0 ≤ address →
  len (DiskImage.get_sector_data d address)
  = Z.max 0 (Z.min (DiskImage.block_size d)
                   (len (DiskImage.image d) - address * DiskImage.block_size d)).
Proof.
  intros Hbs Haddr. unfold DiskImage.get_sector_data.
  pose proof (Z.mul_nonneg_nonneg address (DiskImage.block_size d)).
  rewrite slice_nonneg by lia. unfold len.
  rewrite length_take, length_drop. lia.
Qed.

(** How long a sector read is: the part of the block-sized window at
    [address] that lies inside the image.  A whole block inside the image,
    what is left of the image in a ragged last block, nothing past the
    end. *)
Theorem get_sector_data_length (d : DiskImage.t) (address : Z) :
  0 < DiskImage.block_size d →
  0 ≤ address →
  len (DiskImage.get_sector_data d address)
  = Z.max 0 (Z.min (DiskImage.block_size d)
                   (len (DiskImage.image d) - address * DiskImage.block_size d))
  ∧ len (DiskImage.get_sector_data d address) ≤ DiskImage.block_size d
  ∧ (len (DiskImage.image d) ≤ address * DiskImage.block_size d →
     DiskImage.get_sector_data d address = []).
Proof.
  intros Hbs Haddr. pose proof (get_sector_data_len d address Hbs Haddr) as Hlen.
  split; [done|]. split; [lia|].
  intros Hpast. apply nil_length_inv. unfold len in *. lia.
Qed.

Lemma get_sector_data_length_witness :
  len (DiskImage.get_sector_data ragged_disk 1) = 512
  ∧ len (DiskImage.get_sector_data ragged_disk 2) = 276
  ∧ len (DiskImage.get_sector_data ragged_disk 3) = 0.
Proof.
  destruct (get_sector_data_length ragged_disk 1 eq_refl) as (H1 & _); [lia|].
  destruct (get_sector_data_length ragged_disk 2 eq_refl) as (H2 & _); [lia|].
  destruct (get_sector_data_length ragged_disk 3 eq_refl) as (H3 & _); [lia|].
  split; [|split]; [rewrite H1 | rewrite H2 | rewrite H3]; reflexivity.
Defined.

(** The image after a slice assignment that was accepted. *)
Lemma put_sector_data_inside (d : DiskImage.t) (address : Z) (data : bytes) :
  0 < DiskImage.block_size d →
  0 ≤ address →
  (address + 1) * DiskImage.block_size d ≤ len (DiskImage.image d) →
  DiskImage.block_size d ≤ len data →
  DiskImage.put_sector_data d address data
  = (Ok tt,
     DiskImage.flush
       (DiskImage.set_image d
          (take (Z.to_nat (address * DiskImage.block_size d)) (DiskImage.image d)
           ++ take (Z.to_nat (DiskImage.block_size d)) data
           ++ drop (Z.to_nat ((address + 1) * DiskImage.block_size d)) (DiskImage.image d)))).
Proof.
  intros Hbs Haddr Hin Hdata. unfold DiskImage.put_sector_data.
  pose proof (Z.mul_nonneg_nonneg address (DiskImage.block_size d)).
  rewrite mmap_setslice_inside by lia.
  rewrite slice_nonneg, drop_0, Nat.sub_0_r by lia.
  assert (len (take (Z.to_nat (DiskImage.block_size d)) data) = DiskImage.block_size d) as ->.
  { unfold len in *. rewrite length_take. lia. }
  destruct (Z.eqb_spec (DiskImage.block_size d)
              ((address + 1) * DiskImage.block_size d - address * DiskImage.block_size d));
    [done | lia].
Qed.

(** Writing a sector and reading it back: after [put_sector_data] on a
    sector inside the image with at least one block of data, the sector
    reads back as the first block of that data, and every other sector
    reads as it did before. *)
Theorem put_then_get_sector_data (d : DiskImage.t) (address : Z) (data : bytes) :
  0 < DiskImage.block_size d →
  0 ≤ address →
  (address + 1) * DiskImage.block_size d ≤ len (DiskImage.image d) →
  DiskImage.block_size d ≤ len data →
  ∃ d', DiskImage.put_sector_data d address data = (Ok tt, d')
    ∧ DiskImage.get_sector_data d' address = take (Z.to_nat (DiskImage.block_size d)) data
    ∧ ∀ other, 0 ≤ other → other ≠ address →
        DiskImage.get_sector_data d' other = DiskImage.get_sector_data d other.
Proof.
  intros Hbs Haddr Hin Hdata. eexists. split; [by apply put_sector_data_inside|].
  set (bs := DiskImage.block_size d) in *.
  pose proof (Z.mul_nonneg_nonneg address bs).
  assert (length (take (Z.to_nat (address * bs)) (DiskImage.image d))
          = Z.to_nat (address * bs)) as Hpre.
  { rewrite length_take. unfold len in Hin. lia. }
  assert (length (take (Z.to_nat bs) data) = Z.to_nat bs) as Hmid.
  { rewrite length_take. unfold len in Hdata. lia. }
  unfold DiskImage.get_sector_data. simpl. fold bs. split.
  - rewrite slice_nonneg by lia.
    rewrite drop_app_length' by done.
    rewrite take_app_length'; [done|]. lia.
  - intros other Hother Hne.
    pose proof (Z.mul_nonneg_nonneg other bs).
    apply slice_ext; [lia | lia |]. intros i Hi.
    destruct (Z_lt_le_dec other address) as [Hlt|Hgt].
    + assert ((other + 1) * bs ≤ address * bs) by nia.
      rewrite lookup_app_l by lia. apply lookup_take_lt. lia.
    + assert ((address + 1) * bs ≤ other * bs) by nia.
      rewrite lookup_app_r by lia. rewrite lookup_app_r by lia.
      rewrite lookup_drop. f_equal. lia.
Qed.

Lemma put_then_get_sector_data_witness :
  ∃ d', DiskImage.put_sector_data (blank_disk 4) 1 (chunk 600) = (Ok tt, d')
    ∧ DiskImage.get_sector_data d' 1 = chunk 512
    ∧ DiskImage.get_sector_data d' 2 = DiskImage.get_sector_data (blank_disk 4) 2.
Proof.
  destruct (put_then_get_sector_data (blank_disk 4) 1 (chunk 600))
    as (d' & Hput & Hget & Hother);
    [reflexivity | lia | vm_compute; discriminate | vm_compute; discriminate |].
  exists d'. split; [exact Hput|]. split; [exact Hget|].
  apply Hother; lia.
Defined.

Lemma adjust_index_range n i : 0 ≤ n → 0 ≤ adjust_index n i ≤ n.
Proof. intros Hn. unfold adjust_index. destruct (Z.ltb_spec i 0); lia. Qed.

(** [put_sector_data] never resizes the image: for every address and every
    data, negative or out of range included, the image keeps its length
    and the disk its size and block size; when the call raises, the disk is
    exactly as it was, and when it returns, the image has been flushed. *)
Theorem put_sector_data_keeps_the_size (d : DiskImage.t) (address : Z) (data : bytes) :
  let r := fst (DiskImage.put_sector_data d address data) in
  let d' := snd (DiskImage.put_sector_data d address data) in
  len (DiskImage.image d') = len (DiskImage.image d)
  ∧ DiskImage.size d' = DiskImage.size d
  ∧ DiskImage.block_size d' = DiskImage.block_size d
  ∧ (r = Ok tt ∧ DiskImage.medium d' = DiskImage.image d'
               ∧ DiskImage.flushes d' = S (DiskImage.flushes d)
     ∨ r = Raise IndexError ∧ d' = d).
Proof.
  unfold DiskImage.put_sector_data, DiskImage.mmap_setslice.
  set (m := DiskImage.image d).
  set (a := adjust_index (len m) (address * DiskImage.block_size d)).
  set (b := adjust_index (len m) ((address + 1) * DiskImage.block_size d)).
  set (v := slice data 0 (DiskImage.block_size d)).
  pose proof (len_nonneg m) as Hm.
  pose proof (adjust_index_range (len m) (address * DiskImage.block_size d) Hm) as Ha.
  pose proof (adjust_index_range (len m) ((address + 1) * DiskImage.block_size d) Hm) as Hb.
  fold a in Ha. fold b in Hb.
  destruct (Z.eqb_spec (len v) (Z.max (b - a) 0)) as [Hv|Hv]; simpl.
  - split; [|split; [done|split; [done|left; done]]].
    rewrite !len_app. unfold len in *. rewrite length_take, length_drop. lia.
  - split; [done|split; [done|split; [done|right; done]]].
Qed.

(** A sector that does not lie wholly inside the image cannot be written:
    with at least one block of data, [put_sector_data] on the ragged last
    block of the image, or past its end, raises IndexError and leaves the
    disk as it was. *)
Theorem put_sector_data_outside_raises (d : DiskImage.t) (address : Z) (data : bytes) :
  0 < DiskImage.block_size d →
  0 ≤ address →
  len (DiskImage.image d) < (address + 1) * DiskImage.block_size d →
  DiskImage.block_size d ≤ len data →
  DiskImage.put_sector_data d address data = (Raise IndexError, d).
Proof.
  intros Hbs Haddr Hout Hdata.
  unfold DiskImage.put_sector_data, DiskImage.mmap_setslice.
  set (bs := DiskImage.block_size d) in *.
  pose proof (Z.mul_nonneg_nonneg address bs).
  pose proof (len_nonneg (DiskImage.image d)).
  assert (len (slice data 0 bs) = bs) as ->.
  { rewrite slice_length_inside; lia. }
  unfold adjust_index.
  destruct (Z.ltb_spec (address * bs) 0); [lia|].
  destruct (Z.ltb_spec ((address + 1) * bs) 0); [lia|].
  destruct (Z.eqb_spec bs
              (Z.max (Z.min ((address + 1) * bs) (len (DiskImage.image d))
                      - Z.min (address * bs) (len (DiskImage.image d))) 0));
    [lia | done].
Qed.

Lemma put_sector_data_outside_raises_witness :
  DiskImage.put_sector_data ragged_disk 2 (chunk 512) = (Raise IndexError, ragged_disk)
  ∧ DiskImage.put_sector_data ragged_disk 7 (chunk 512) = (Raise IndexError, ragged_disk).
Proof.
  split.
  - apply (put_sector_data_outside_raises ragged_disk 2 (chunk 512));
      [reflexivity | lia | vm_compute; reflexivity | vm_compute; discriminate].
  - apply (put_sector_data_outside_raises ragged_disk 7 (chunk 512));
      [reflexivity | lia | vm_compute; reflexivity | vm_compute; discriminate].
Defined.

(** The sector count the disk reports is the address of its last whole
    sector: for an opened image of at least one sector (and fewer than
    [2 ^ 53] bytes), every address from 0 up to the count reads a full
    512-byte sector, and the address after it does not. *)
Theorem sector_count_is_last_whole_sector (d : DiskImage.t) :
  DiskImage.opened d →
  DiskImage.block_size d = 512 →
  512 ≤ DiskImage.size d < 2 ^ 53 →
  ∃ last, DiskImage.get_sector_count d = Ok last
    ∧ 0 ≤ last
    ∧ (∀ lba, 0 ≤ lba ≤ last → len (DiskImage.get_sector_data d lba) = 512)
    ∧ len (DiskImage.get_sector_data d (last + 1)) < 512.
Proof.
  intros [Hsize _] Hbs Hrange.
  exists (DiskImage.size d / 512 - 1).
  split; [apply get_sector_count_exact; [done | lia]|].
  pose proof (Z.div_mod (DiskImage.size d) 512) as Hdiv.
  pose proof (Z.mod_pos_bound (DiskImage.size d) 512) as Hmod.
  assert (1 ≤ DiskImage.size d / 512) by (apply Z.div_le_lower_bound; lia).
  split; [lia|]. split.
  - intros lba Hlba. rewrite get_sector_data_len by lia. rewrite Hbs, <- Hsize. lia.
  - rewrite get_sector_data_len by lia. rewrite Hbs, <- Hsize. lia.
Qed.

Lemma sector_count_is_last_whole_sector_witness :
  ∃ last, DiskImage.get_sector_count ragged_disk = Ok last
    ∧ last = 1
    ∧ len (DiskImage.get_sector_data ragged_disk last) = 512
    ∧ len (DiskImage.get_sector_data ragged_disk (last + 1)) < 512.
Proof.
  destruct (sector_count_is_last_whole_sector ragged_disk)
    as (last & Hcount & Hpos & Hwhole & Hnext);
    [apply sparse_disk_opened; lia | reflexivity
     | split; [vm_compute; discriminate | vm_compute; reflexivity] |].
  exists last. split; [exact Hcount|].
  assert (last = 1) as Hlast by (vm_compute in Hcount; congruence).
  split; [exact Hlast|]. split; [apply Hwhole; lia | exact Hnext].
Defined.

(** An image smaller than one sector has sector count -1, and Read
    Capacity(10) reports it as last address FF FF FF FF with 512-byte
    blocks. *)
Theorem read_capacity_of_a_tiny_image (cbw : CommandBlockWrapper) (w : world) :
  DiskImage.block_size (disk_image (self w)) = 512 →
  0 ≤ DiskImage.size (disk_image (self w)) < 512 →
  byte_at (cb cbw) 0 = Ok 0x25 →
  DiskImage.get_sector_count (disk_image (self w)) = Ok (-1)
  ∧ handle_scsi_command cbw w
    = (Ok (STATUS_OKAY, Some (hex [0xff; 0xff; 0xff; 0xff; 0x00; 0x00; 0x02; 0x00])), w).
Proof.
  intros Hbs Hsize Hop.
  assert (DiskImage.get_sector_count (disk_image (self w)) = Ok (-1)) as Hcount.
  { rewrite get_sector_count_exact by lia. by rewrite Z.div_small by lia. }
  split; [done|].
  unfold handle_scsi_command. step_lift Hop. cbv zeta.
  change (commands !! 37) with
    (Some {| d_number := 0x25; d_name := "Get Read Capacity";
             d_handler := Handle_get_read_capacity |}).
  cbv iota. unfold call_handler, d_handler, handle_get_read_capacity.
  erewrite run_bind
    by (unfold disk_get_sector_count;
        erewrite run_bind by (unfold gets; reflexivity);
        rewrite run_lift, Hcount; reflexivity).
  reflexivity.
Qed.

Lemma read_capacity_of_a_tiny_image_witness :
  handle_scsi_command read_capacity (world_over tiny_disk)
  = (Ok (STATUS_OKAY, Some (hex [0xff; 0xff; 0xff; 0xff; 0x00; 0x00; 0x02; 0x00])),
     world_over tiny_disk).
Proof.
  apply (read_capacity_of_a_tiny_image read_capacity (world_over tiny_disk));
    [reflexivity | split; [vm_compute; discriminate | vm_compute; reflexivity]
     | reflexivity].
Defined.

(** ** Hex dumps *)

Lemma string_length_append (s t : string) :
  String.length (String.append s t) = (String.length s + String.length t)%nat.
Proof. induction s as [|c s IH]; simpl; [done | by rewrite IH]. Qed.

Lemma string_append_cancel (s t t' : string) :
  String.append s t = String.append s t' → t = t'.
Proof. induction s as [|c s IH]; simpl; [done|]. intros [= H]. by apply IH. Qed.

Lemma unformat_format_02x (x : byte) : unformat_02x (format_02x x) = Byte.to_N x.
Proof. destruct x; reflexivity. Qed.

Lemma format_02x_inj (x y : byte) : format_02x x = format_02x y → x = y.
Proof.
  intros H. apply (f_equal unformat_02x) in H. rewrite !unformat_format_02x in H.
  pose proof (Byte.of_to_N x) as Hx. rewrite H, Byte.of_to_N in Hx. congruence.
Qed.

Lemma join_cons (delim s : string) (items : list string) :
  items ≠ [] →
  join delim (s :: items) = String.append s (String.append delim (join delim items)).
Proof. by destruct items. Qed.

Lemma join_formats_length (delim : string) (b : bytes) :
  b ≠ [] →
  String.length (join delim (map format_02x b))
  = (2 * length b + String.length delim * (length b - 1))%nat.
Proof.
  induction b as [|x b IH]; [done|]. intros _.
  destruct b as [|y b]; [simpl; lia|].
  rewrite map_cons, join_cons by done.
  rewrite !string_length_append, IH by done. simpl. lia.
Qed.

(** The length of a dump: two digits for each byte and one delimiter
    between neighbours; the dump of no bytes is the empty string. *)
Theorem bytes_as_hex_length (b : bytes) (delim : string) :
  bytes_as_hex [] delim = EmptyString
  ∧ (b ≠ [] →
     String.length (bytes_as_hex b delim)
     = (2 * length b + String.length delim * (length b - 1))%nat).
Proof. split; [done|]. apply join_formats_length. Qed.

Lemma bytes_as_hex_length_witness :
  bytes_as_hex (hex [0x2a; 0x00; 0xff]) " " = "2a 00 ff"%string
  ∧ String.length (bytes_as_hex (hex [0x2a; 0x00; 0xff]) " ") = 8%nat.
Proof.
  split; [reflexivity|].
  exact (proj2 (bytes_as_hex_length (hex [0x2a; 0x00; 0xff]) " ")
           ltac:(discriminate)).
Defined.

Lemma string_append_two (a b : Ascii.ascii) (t : string) :
  String.append (String a (String b EmptyString)) t = String a (String b t).
Proof. reflexivity. Qed.

Lemma join_formats_nonempty (delim : string) (x : byte) (b : bytes) :
  join delim (map format_02x (x :: b)) ≠ EmptyString.
Proof. destruct b; simpl; discriminate. Qed.

Lemma string_append_empty (s t : string) :
  String.append s t = EmptyString → t = EmptyString.
Proof. destruct s; simpl; [done | discriminate]. Qed.

(** A dump determines the bytes: with the same delimiter, whatever it is,
    two byte strings that dump to the same text are the same. *)
Theorem bytes_as_hex_injective (b b' : bytes) (delim : string) :
  bytes_as_hex b delim = bytes_as_hex b' delim → b = b'.
Proof.
  unfold bytes_as_hex. revert b'.
  induction b as [|x b IH]; intros [|y b'] H.
  - done.
  - symmetry in H. by apply join_formats_nonempty in H.
  - by apply join_formats_nonempty in H.
  - destruct b as [|x' b], b' as [|y' b'].
    + simpl in H. by apply format_02x_inj in H as ->.
    + rewrite (map_cons _ y), (join_cons _ _ (map format_02x (y' :: b'))) in H by done.
      pose proof (join_formats_nonempty delim y' b') as Hne.
      set (J := join delim (map format_02x (y' :: b'))) in *.
      unfold format_02x in H. cbn [map join] in H.
      rewrite string_append_two in H.
      injection H as _ _ H. symmetry in H.
      destruct (Hne (string_append_empty _ _ H)).
    + rewrite (map_cons _ x), (join_cons _ _ (map format_02x (x' :: b))) in H by done.
      pose proof (join_formats_nonempty delim x' b) as Hne.
      set (J := join delim (map format_02x (x' :: b))) in *.
      unfold format_02x in H. cbn [map join] in H.
      rewrite string_append_two in H.
      injection H as _ _ H.
      destruct (Hne (string_append_empty _ _ H)).
    + rewrite (map_cons _ x), (join_cons _ _ (map format_02x (x' :: b))) in H by done.
      rewrite (map_cons _ y), (join_cons _ _ (map format_02x (y' :: b'))) in H by done.
      assert (format_02x x = format_02x y
              ∧ join delim (map format_02x (x' :: b))
                = join delim (map format_02x (y' :: b'))) as [Hxy Hrest].
      { set (J := join delim (map format_02x (x' :: b))) in *.
        set (J' := join delim (map format_02x (y' :: b'))) in *.
        unfold format_02x in *. rewrite !string_append_two in H.
        injection H as H1 H2 H3. apply string_append_cancel in H3.
        split; [by rewrite H1, H2 | done]. }
      apply format_02x_inj in Hxy as ->. f_equal. by apply IH.
Qed.

Lemma bytes_as_hex_injective_witness :
  bytes_as_hex (lit "*") " " = bytes_as_hex (hex [0x2a]) " "
  ∧ lit "*" = hex [0x2a].
Proof.
  split; [reflexivity|].
  exact (bytes_as_hex_injective (lit "*") (hex [0x2a]) " " eq_refl).
Defined.

(** ** Every answer ends with a status wrapper *)

Lemma log_extended_refl w : log_extended w w.
Proof. exists []. by rewrite app_nil_r. Qed.

Lemma log_extended_trans w1 w2 w3 :
  log_extended w1 w2 → log_extended w2 w3 → log_extended w1 w3.
Proof.
  intros [e1 H1] [e2 H2]. exists (e1 ++ e2). by rewrite H2, H1, app_assoc.
Qed.

Lemma log_extended_emit e : keeps log_extended (emit e).
Proof. intros w. by exists [e]. Qed.

Lemma log_extended_modify f : keeps log_extended (modify f).
Proof. intros w. exists []. simpl. by rewrite app_nil_r. Qed.

(** One step of a sequence under [log_extended]. *)
Ltac log_step :=
  apply keeps_bind; [apply log_extended_trans | | intros].

Lemma keeps_log_handle_write cbw : keeps log_extended (handle_write cbw).
Proof.
  unfold handle_write.
  do 6 (log_step; [apply keeps_lift, log_extended_refl|]).
  log_step; [apply log_extended_modify|].
  log_step; [apply log_extended_modify|].
  log_step; [apply keeps_gets, log_extended_refl|].
  log_step; [apply log_extended_modify|].
  log_step; [apply log_extended_modify|].
  apply keeps_ret, log_extended_refl.
Qed.

Lemma keeps_log_handle_scsi_command cbw : keeps log_extended (handle_scsi_command cbw).
Proof.
  assert (∀ h, keeps log_extended (call_handler h cbw)) as Hcall.
  { intros h.
    assert (h = Handle_write ∨ h ≠ Handle_write) as [->|Hh]
      by (destruct h; auto || (right; discriminate)).
    - apply keeps_log_handle_write.
    - apply (keeps_call_handler log_extended log_extended_refl log_extended_trans);
        [intros; apply log_extended_emit | intros; apply log_extended_emit | done]. }
  unfold handle_scsi_command.
  log_step; [apply keeps_lift, log_extended_refl|].
  cbv zeta. destruct (commands !! _) as [command|].
  - apply Hcall.
  - apply (Hcall Handle_unknown_command).
Qed.

Lemma keeps_log_continue_write module_data cbw :
  keeps log_extended (continue_write module_data cbw).
Proof.
  unfold continue_write.
  log_step; [apply keeps_gets, log_extended_refl|].
  log_step.
  { unfold lookup_data. destruct module_data;
      [apply keeps_ret | apply keeps_raise]; apply log_extended_refl. }
  log_step; [apply log_extended_modify|].
  log_step; [apply keeps_gets, log_extended_refl|].
  log_step; [apply keeps_gets, log_extended_refl|].
  match goal with |- keeps _ (if ?c then _ else _) => destruct c end;
    [apply keeps_ret, log_extended_refl|].
  log_step; [apply keeps_gets, log_extended_refl|].
  log_step.
  { unfold disk_put_sector_data.
    log_step; [apply log_extended_emit|].
    log_step; [apply keeps_gets, log_extended_refl|].
    match goal with |- keeps _ (let '(_, _) := ?p in _) => destruct p end.
    log_step; [apply log_extended_modify | apply keeps_lift, log_extended_refl]. }
  log_step; [apply keeps_gets, log_extended_refl|].
  log_step; [apply log_extended_modify|].
  log_step; [apply log_extended_modify|].
  apply keeps_ret, log_extended_refl.
Qed.

(** A handler that asks for more data has logged nothing; at the
    dispatcher only Write(10) does so. *)
Lemma incomplete_call_is_write h cbw w response w1 :
  call_handler h cbw w = (Ok (STATUS_INCOMPLETE, response), w1) → h = Handle_write.
Proof.
  intros H. destruct h; [..|done]; exfalso; unfold call_handler in H;
    [ unfold handle_unknown_command in H
    | unfold handle_ignored_event in H
    | unfold handle_sense in H
    | unfold handle_inquiry in H
    | unfold handle_mode_sense in H
    | unfold handle_get_format_capacity in H
    | unfold handle_get_read_capacity in H
    | unfold handle_read in H ];
    peel H; injection H as H _ _; discriminate.
Qed.

Lemma same_log_refl w : same_log w w.
Proof. done. Qed.

Lemma same_log_trans w1 w2 w3 : same_log w1 w2 → same_log w2 w3 → same_log w1 w3.
Proof. unfold same_log. congruence. Qed.

Lemma same_log_modify f : keeps same_log (modify f).
Proof. by intros w. Qed.

(** One step of a sequence under [same_log]. *)
Ltac quiet_step :=
  apply keeps_bind; [apply same_log_trans | | intros].

Lemma keeps_same_log_handle_write cbw : keeps same_log (handle_write cbw).
Proof.
  unfold handle_write.
  do 6 (quiet_step; [apply keeps_lift, same_log_refl|]).
  quiet_step; [apply same_log_modify|].
  quiet_step; [apply same_log_modify|].
  quiet_step; [apply keeps_gets, same_log_refl|].
  quiet_step; [apply same_log_modify|].
  quiet_step; [apply same_log_modify|].
  apply keeps_ret, same_log_refl.
Qed.

Lemma incomplete_logs_nothing module_data cbw w w1 response :
  (if is_write_in_progress (self w)
   then continue_write module_data cbw
   else handle_scsi_command cbw) w = (Ok (STATUS_INCOMPLETE, response), w1) →
  log w1 = log w
  ∧ (is_write_in_progress (self w) = true ∨ byte_at (cb cbw) 0 = Ok 0x2a).
Proof.
  intros H. destruct (is_write_in_progress (self w)) eqn:Hwrite.
  - split; [|by left].
    unfold continue_write, lookup_data in H. destruct module_data as [d|].
    + revert H. run.
      destruct (len (write_data (self w) ++ d) <? write_length (self w)).
      * by intros [= _ <-].
      * unfold disk_put_sector_data. run.
        destruct (DiskImage.put_sector_data _ _ _) as [[[]|e] d']; simpl; discriminate.
    + discriminate.
  - unfold handle_scsi_command in H.
    destruct (byte_at (cb cbw) 0) as [opcode|e] eqn:Hop.
    2: { erewrite run_bind_raise in H by (rewrite run_lift; reflexivity). discriminate. }
    erewrite run_bind in H by (rewrite run_lift; reflexivity). cbv zeta in H.
    destruct (commands !! opcode) as [command|] eqn:Hcmd.
    + pose proof (incomplete_call_is_write _ _ _ _ _ H) as Hh.
      apply commands_lookup_Some in Hcmd as (_ & _ & Hw & _).
      rewrite (Hw Hh). split; [|by right].
      rewrite Hh in H. pose proof (keeps_same_log_handle_write cbw w) as Hlog.
      simpl in H. rewrite H in Hlog. exact Hlog.
    + by apply (incomplete_call_is_write Handle_unknown_command) in H.
Qed.

(** Whatever the entry point answers, it answers last with a status
    wrapper: if a delivery returns normally having logged anything, the last thing sent is the 13-byte wrapper made of [USBS],
    bytes 4 to 7 of that same delivery, a zero residue and a status byte
    of 0x00 or 0x02; otherwise nothing at all was logged, and the delivery
    was a Write(10) command or arrived while a write was in progress. *)
Theorem answers_end_with_a_status_wrapper
    (module_data : option bytes) (data : bytes) (w w' : world) :
  handle_data_available module_data data w = (Ok tt, w') →
  ∃ evs, log w' = log w ++ evs
    ∧ (evs = [] ∧ (∃ cbw, CommandBlockWrapper_init data = Ok cbw
                              ∧ (is_write_in_progress (self w) = true
                                 ∨ byte_at (cb cbw) 0 = Ok 0x2a))
       ∨ ∃ before sb,
           evs = before ++ [Send (csw_wire (take 4 (drop 4 data)) sb) false]
           ∧ len (csw_wire (take 4 (drop 4 data)) sb) = 13
           ∧ (sb = "000"%byte ∨ sb = "002"%byte)).
Proof.
  intros Hrun.
  destruct (CommandBlockWrapper_init data) as [cbw|e] eqn:Hparse.
  2: { unfold handle_data_available in Hrun.
       erewrite run_bind_raise in Hrun by (rewrite run_lift, Hparse; reflexivity).
       discriminate. }
  set (handler := if is_write_in_progress (self w)
                  then continue_write module_data cbw
                  else handle_scsi_command cbw).
  assert (keeps log_extended handler) as Hkeeps.
  { unfold handler. destruct (is_write_in_progress (self w));
      [apply keeps_log_continue_write | apply keeps_log_handle_scsi_command]. }
  destruct (handler w) as [[[status response]|e] w1] eqn:Hhandler.
  2: { unfold handle_data_available in Hrun.
       erewrite run_bind in Hrun by (rewrite run_lift, Hparse; reflexivity).
       erewrite run_bind in Hrun by (unfold gets; reflexivity).
       erewrite run_bind_raise in Hrun by apply Hhandler. discriminate. }
  pose proof (Hkeeps w) as [evs1 Hevs1]. rewrite Hhandler in Hevs1. simpl in Hevs1.
  destruct (Z.eq_dec status STATUS_INCOMPLETE) as [->|Hstatus].
  - (* the handler asked for more data *)
    unfold handle_data_available in Hrun.
    erewrite run_bind in Hrun by (rewrite run_lift, Hparse; reflexivity).
    erewrite run_bind in Hrun by (unfold gets; reflexivity).
    erewrite run_bind in Hrun by apply Hhandler.
    injection Hrun as <-.
    destruct (incomplete_logs_nothing module_data cbw w w1 response Hhandler)
      as [Hlog Hwhy].
    exists []. rewrite app_nil_r. split; [done|]. left. split; [done|].
    exists cbw. by split.
  - destruct (status_wrapper_of_delivery module_data data cbw w w1 status response
                Hparse Hhandler Hstatus) as (sb & Hsb & Htag & Hsent & Hlen).
    rewrite Hsent in Hrun. injection Hrun as <-. simpl.
    exists (evs1
            ++ (if truthy response then [Send (default [] response) true] else [])
            ++ [Send (csw_wire (tag cbw) sb) false]).
    split; [by rewrite Hevs1, <- !app_assoc|]. right.
    exists (evs1 ++ (if truthy response then [Send (default [] response) true] else [])), sb.
    rewrite <- Htag. split; [by rewrite <- app_assoc|]. split; [done|].
    assert (status = STATUS_OKAY ∨ status = STATUS_FAILURE ∨ status = STATUS_INCOMPLETE)
      as [-> | [-> | ->]]; [|by left; apply int_of_byte_inj
                            |by right; apply int_of_byte_inj | done].
    unfold handler in Hhandler. destruct (is_write_in_progress (self w)).
    + by apply continue_write_status in Hhandler.
    + by apply handle_scsi_command_status in Hhandler.
Qed.

Lemma answers_end_with_a_status_wrapper_witness :
  ∃ evs,
    log (snd (handle_data_available None unknown_3_wire (fresh_world 8)))
    = log (fresh_world 8) ++ evs
    ∧ (evs = [] ∧ (∃ cbw, CommandBlockWrapper_init unknown_3_wire = Ok cbw
                    ∧ (is_write_in_progress (self (fresh_world 8)) = true
                       ∨ byte_at (cb cbw) 0 = Ok 0x2a))
       ∨ ∃ before sb,
           evs = before ++ [Send (csw_wire (take 4 (drop 4 unknown_3_wire)) sb) false]
           ∧ len (csw_wire (take 4 (drop 4 unknown_3_wire)) sb) = 13
           ∧ (sb = "000"%byte ∨ sb = "002"%byte)).
Proof.
  apply (answers_end_with_a_status_wrapper None unknown_3_wire (fresh_world 8)
           (snd (handle_data_available None unknown_3_wire (fresh_world 8)))).
  reflexivity.
Defined.

(** ** The address Write(10) records *)

(** What Write(10) does, as a run of the dispatcher. *)
Lemma handle_scsi_command_write (cbw : CommandBlockWrapper) (w : world)
    (c1 c2 c3 c4 c7 c8 : Z) :
  byte_at (cb cbw) 0 = Ok 0x2a →
  byte_at (cb cbw) 1 = Ok c1 → byte_at (cb cbw) 2 = Ok c2 →
  byte_at (cb cbw) 3 = Ok c3 → byte_at (cb cbw) 4 = Ok c4 →
  byte_at (cb cbw) 7 = Ok c7 → byte_at (cb cbw) 8 = Ok c8 →
  handle_scsi_command cbw w
  = (Ok (STATUS_INCOMPLETE, None),
     {| self := {| disk_image := disk_image (self w);
                   is_write_in_progress := true;
                   write_cbw := Some cbw;
                   write_base_lba := be32 c1 c2 c3 c4;
                   write_length :=
                     be16 c7 c8 * DiskImage.block_size (disk_image (self w));
                   write_data := write_data (self w) |};
        log := log w |}).
Proof.
  intros Hop H1 H2 H3 H4 H7 H8.
  pose proof (byte_at_range _ _ _ H1). pose proof (byte_at_range _ _ _ H2).
  pose proof (byte_at_range _ _ _ H3). pose proof (byte_at_range _ _ _ H4).
  pose proof (byte_at_range _ _ _ H7). pose proof (byte_at_range _ _ _ H8).
  unfold handle_scsi_command. step_lift Hop. cbv zeta.
  change (commands !! 42) with
    (Some {| d_number := 0x2a; d_name := "Write"; d_handler := Handle_write |}).
  cbv iota. unfold call_handler, d_handler, handle_write.
  step_lift H1. step_lift H2. step_lift H3. step_lift H4. step_lift H7. step_lift H8.
  rewrite be32_of_shifts, be16_of_shifts by done. reflexivity.
Qed.

(** Write(10) and Read(10) read the address from different bytes.  For a
    command block whose bytes 2 to 5 hold the address A as Read(10) reads
    it, Write(10) records command byte 1 followed by the top three bytes
    of A: the address [c1 * 2 ^ 24 + A / 256], which drops the low byte of
    A. *)
Theorem write_10_address_drops_a_byte
    (cbw : CommandBlockWrapper) (w : world) (c1 c2 c3 c4 c5 c7 c8 : Z) :
  byte_at (cb cbw) 0 = Ok 0x2a →
  byte_at (cb cbw) 1 = Ok c1 → byte_at (cb cbw) 2 = Ok c2 →
  byte_at (cb cbw) 3 = Ok c3 → byte_at (cb cbw) 4 = Ok c4 →
  byte_at (cb cbw) 5 = Ok c5 →
  byte_at (cb cbw) 7 = Ok c7 → byte_at (cb cbw) 8 = Ok c8 →
  write_base_lba (self (snd (handle_scsi_command cbw w)))
  = c1 * 2 ^ 24 + be32 c2 c3 c4 c5 / 256.
Proof.
  intros Hop H1 H2 H3 H4 H5 H7 H8.
  rewrite (handle_scsi_command_write cbw w c1 c2 c3 c4 c7 c8) by done. simpl.
  pose proof (byte_at_range _ _ _ H5).
  unfold be32.
  replace (c2 * 2 ^ 24 + c3 * 2 ^ 16 + c4 * 2 ^ 8 + c5)
    with (c5 + (c2 * 2 ^ 16 + c3 * 2 ^ 8 + c4) * 256) by lia.
  rewrite Z.div_add, Z.div_small by lia. lia.
Qed.

Lemma write_10_address_drops_a_byte_witness :
  be32 0 0 5 0 = 1280
  ∧ write_base_lba (self (snd (handle_scsi_command write_10 (fresh_world 8)))) = 5.
Proof.
  split; [reflexivity|].
  exact (write_10_address_drops_a_byte write_10 (fresh_world 8) 0 0 0 5 0 0 1
           eq_refl eq_refl eq_refl eq_refl eq_refl eq_refl eq_refl eq_refl).
Defined.

(** ** Complete commands never raise *)

Lemma returns_bind {A B} (m : M A) (k : A → M B) (w w1 : world) (a : A) :
  m w = (Ok a, w1) → returns (k a) w1 → returns (m ≫= k) w.
Proof. intros Hm (b & w2 & Hk). exists b, w2. by rewrite (run_bind m k w w1 a). Qed.

Lemma returns_ret {A} (a : A) (w : world) : returns (mret a) w.
Proof. by exists a, w. Qed.

Lemma byte_at_inside (l : bytes) (i : Z) : 0 ≤ i < len l → ∃ z, byte_at l i = Ok z.
Proof.
  intros Hi. unfold byte_at.
  destruct (getitem_inside l i) as [b ->]; [lia | lia | eauto].
Qed.

Lemma bytes_of_ints_ok (l : list Z) :
  Forall (λ z, 0 ≤ z < 256) l → ∃ bs, bytes_of_ints l = Ok bs.
Proof.
  induction 1 as [|z l Hz _ [bs IH]]; [by exists []|].
  destruct (byte_of_int_in_range z Hz) as (b & Hb & _).
  exists (b :: bs). simpl. by rewrite Hb, IH.
Qed.

Lemma land_0xff_range z : 0 ≤ Z.land z 0xff < 256.
Proof.
  change 0xff with (Z.ones 8). rewrite Z.land_ones by lia.
  apply Z.mod_pos_bound. lia.
Qed.

(** Step over [x ← lift r; ...] towards [returns] when [H : r = Ok a]. *)
Ltac returns_lift H :=
  eapply returns_bind; [rewrite run_lift, H; reflexivity|].

Lemma call_handler_returns (h : handler) (cbw : CommandBlockWrapper) (w : world) :
  9 ≤ len (cb cbw) →
  DiskImage.block_size (disk_image (self w)) = 512 →
  0 ≤ DiskImage.size (disk_image (self w)) < 2 ^ 53 →
  returns (call_handler h cbw) w.
Proof.
  intros Hcb Hbs Hsize.
  destruct (byte_at_inside (cb cbw) 1) as [c1 H1]; [lia|].
  destruct (byte_at_inside (cb cbw) 2) as [c2 H2]; [lia|].
  destruct (byte_at_inside (cb cbw) 3) as [c3 H3]; [lia|].
  destruct (byte_at_inside (cb cbw) 4) as [c4 H4]; [lia|].
  destruct (byte_at_inside (cb cbw) 5) as [c5 H5]; [lia|].
  destruct (byte_at_inside (cb cbw) 7) as [c7 H7]; [lia|].
  destruct (byte_at_inside (cb cbw) 8) as [c8 H8]; [lia|].
  destruct h; simpl.
  - unfold handle_unknown_command.
    destruct (0 <? data_transfer_length cbw).
    + eapply returns_bind; [|apply returns_ret].
      erewrite run_bind by (rewrite run_lift, bytes_of_ints_zeros; reflexivity). done.
    + eapply returns_bind; [reflexivity | apply returns_ret].
  - apply returns_ret.
  - apply returns_ret.
  - unfold handle_inquiry.
    destruct (slice_prefix_6 (cb cbw)) as (b0 & b1 & b2 & b3 & b4 & b5 & Hslice); [lia|].
    eapply returns_bind; [rewrite run_lift, Hslice; reflexivity|].
    eapply returns_bind; [reflexivity|].
    eapply returns_bind; [rewrite run_lift, bytes_of_ints_zeros; reflexivity|].
    apply returns_ret.
  - unfold handle_mode_sense. returns_lift H2. apply returns_ret.
  - unfold handle_get_format_capacity.
    eapply returns_bind; [reflexivity | apply returns_ret].
  - unfold handle_get_read_capacity.
    eapply returns_bind.
    { unfold disk_get_sector_count.
      erewrite run_bind by (unfold gets; reflexivity).
      rewrite run_lift, get_sector_count_exact by done. reflexivity. }
    set (lastlba := DiskImage.size (disk_image (self w)) / 512 - 1).
    destruct (bytes_of_ints_ok
                [Z.land (Z.shiftr lastlba 24) 0xff; Z.land (Z.shiftr lastlba 16) 0xff;
                 Z.land (Z.shiftr lastlba 8) 0xff; Z.land lastlba 0xff;
                 0x00; 0x00; 0x02; 0x00]) as [bs Hbs'].
    { repeat constructor; try apply land_0xff_range; lia. }
    returns_lift Hbs'. apply returns_ret.
  - unfold handle_read.
    returns_lift H2. returns_lift H3. returns_lift H4. returns_lift H5.
    returns_lift H7. returns_lift H8.
    eapply returns_bind; [apply for_each_read_sectors | apply returns_ret].
  - unfold handle_write.
    returns_lift H1. returns_lift H2. returns_lift H3. returns_lift H4.
    returns_lift H7. returns_lift H8.
    eexists _, _. reflexivity.
Qed.

(** An idle interface over a 512-byte-sector image (of fewer than
    [2 ^ 53] bytes) answers every delivery that carries at least nine
    command bytes, 24 bytes in all: whatever the opcode and the operands,
    registered or not, the entry point returns and does not raise. *)
Theorem complete_commands_never_raise
    (module_data : option bytes) (data : bytes) (w : world) :
  24 ≤ len data →
  is_write_in_progress (self w) = false →
  DiskImage.block_size (disk_image (self w)) = 512 →
  0 ≤ DiskImage.size (disk_image (self w)) < 2 ^ 53 →
  ∃ w', handle_data_available module_data data w = (Ok tt, w').
Proof.
  intros Hlen Hidle Hbs Hsize.
  destruct (CommandBlockWrapper_init_ok data) as (cbw & Hparse & _ & Hcb & _).
  { unfold len in Hlen. lia. }
  assert (9 ≤ len (cb cbw)) as Hcblen.
  { rewrite Hcb. unfold len in *. rewrite length_drop. lia. }
  assert (returns (handle_scsi_command cbw) w) as ([status response] & w1 & Hrun).
  { unfold handle_scsi_command.
    destruct (byte_at_inside (cb cbw) 0) as [opcode Hop]; [lia|].
    returns_lift Hop. cbv zeta.
    destruct (commands !! opcode) as [command|].
    - by apply call_handler_returns.
    - by apply (call_handler_returns Handle_unknown_command). }
  destruct (Z.eq_dec status STATUS_INCOMPLETE) as [->|Hstatus].
  - exists w1. unfold handle_data_available. step_lift Hparse.
    erewrite run_bind by (unfold gets; rewrite Hidle; reflexivity).
    erewrite run_bind by apply Hrun. done.
  - assert ((if is_write_in_progress (self w)
             then continue_write module_data cbw
             else handle_scsi_command cbw) w = handle_scsi_command cbw w) as Hidle'
      by (by rewrite Hidle).
    rewrite <- Hidle' in Hrun.
    destruct (status_wrapper_of_delivery module_data data cbw w w1 status response
                Hparse Hrun Hstatus) as (sb & _ & _ & -> & _).
    eauto.
Qed.

Lemma complete_commands_never_raise_witness :
  ∃ w', handle_data_available None inquiry_40_wire (fresh_world 8) = (Ok tt, w').
Proof.
  apply (complete_commands_never_raise None inquiry_40_wire (fresh_world 8));
    [vm_compute; discriminate | reflexivity | reflexivity
     | split; [vm_compute; discriminate | vm_compute; reflexivity]].
Defined.
